(** * Coffee yield prediction pipeline: aggregation and model selection

    A shallow embedding of the two notebooks that carry the logic of the
    repository:

    - [notebooks/05_vegetation_indices_calculation.ipynb], the monthly
      aggregation of the vegetation indices per woreda (module
      [Aggregator]), the control flow of the cell around it (module
      [Notebook05]) and the names of the export files (module [Loader]);
    - [notebooks/09_yield_prediction_model.ipynb], data preparation, model
      training and selection, the 2025 prediction (modules [Frame],
      [Preparation], [Engine] and [Predictor]) and the importance tables
      (module [Importance]).

    Numbers: a float64 value is an [option Q], [None] being NaN (a missing
    value); sums and means are exact rational arithmetic, so rounding is not
    modelled.  Scores of the model selection loop live in [score], which
    adds the infinities that [float('inf')] needs.  Exceptions are values of
    [result]; what the cell prints is kept where a property depends on it.
    Calls into scikit-learn, xgboost and numpy are the fields of the class
    [Library]; the attributes read off a fitted estimator are those of
    [Attributes]. *)

From Stdlib Require Import ZArith QArith Qround Qabs List String Bool Lia.
From Stdlib Require Import DecimalString Lqa.
From stdpp Require Import base option list gmap strings sorting.

Local Open Scope Z_scope.

(** ** Numeric columns *)

(** A float64 value as pandas sees it: a number or NaN. *)
Abbreviation float64 := (option Q).

Definition Qsum (l : list Q) : Q := foldr Qplus 0%Q l.

(** The arithmetic mean of a list of numbers, as the specification words it:
    the sum divided by the number of values. *)
Definition arith_mean (l : list Q) : Q :=
  (Qsum l / inject_Z (Z.of_nat (length l)))%Q.

(** The non-missing values of a column, in order. *)
Definition present (col : list float64) : list Q := omap id col.

(** [Series.mean()] with pandas' default [skipna=True]: the mean of the
    non-missing values, NaN when there are none. *)
Definition series_mean (col : list float64) : float64 :=
  match present col with
  | [] => None
  | vs => Some (arith_mean vs)
  end.

(** ** Insertion sort, stable, for [groupby] keys and [sort_values] *)

Section Sort.
Context {A : Type} (leb : A -> A -> bool).

Fixpoint insert_sorted (x : A) (l : list A) : list A :=
  match l with
  | [] => [x]
  | y :: l' => if leb x y then x :: l else y :: insert_sorted x l'
  end.

Definition sort_by (l : list A) : list A := foldr insert_sorted [] l.
End Sort.

(** ** Notebook 05: monthly vegetation indices per woreda *)

Module Aggregator.

(** One row of a [df_subset]: the five columns kept from a Sentinel-2
    export after the type coercions.  The rows are typed: the id is a
    text, year and month are integers, and the two indices are float64
    columns.  An export whose NDVI or SAVI column holds text, on which the
    [mean] of l.138 raises, is outside this model. *)
Record vi_obs := {
  woreda_id : string;
  year : Z;
  month : Z;
  avg_ndvi : float64;
  avg_savi : float64
}.

(** A row of [df_monthly_vi] once [woreda_name] is a proper column. *)
Record vi_row := {
  obs : vi_obs;
  woreda_name : string
}.

(** [pd.concat(all_vi_data, ignore_index=True)]. *)
Definition concat_frames (all_vi_data : list (list vi_obs)) : list vi_obs :=
  concat all_vi_data.

(** [df['woreda_id'].map(woreda_name_map)]: an id that is no key of the
    dict maps to NaN (a key whose name is null in the boundary file behaves
    like an absent key). *)
Definition map_woreda_name (woreda_name_map : gmap string string)
    (rows : list vi_obs) : list (vi_obs * option string) :=
  map (fun r => (r, woreda_name_map !! woreda_id r)) rows.

(** [dropna(subset=['woreda_name'])]. *)
Definition dropna_woreda_name (rows : list (vi_obs * option string))
    : list vi_row :=
  omap (fun p => match snd p with
                 | Some n => Some {| obs := fst p; woreda_name := n |}
                 | None => None
                 end) rows.

(** The [groupby] key, in the order of the [by] list. *)
Definition group_key : Type := string * string * Z * Z.

Definition key_of (r : vi_row) : group_key :=
  (woreda_id (obs r), woreda_name r, year (obs r), month (obs r)).

(** Lexicographic order on key tuples, as Python compares them. *)
Definition key_leb (a b : group_key) : bool :=
  let '(i1, n1, y1, m1) := a in
  let '(i2, n2, y2, m2) := b in
  if String.ltb i1 i2 then true
  else if String.ltb i2 i1 then false
  else if String.ltb n1 n2 then true
  else if String.ltb n2 n1 then false
  else if y1 <? y2 then true
  else if y2 <? y1 then false
  else m1 <=? m2.

Definition group_keys (rows : list vi_row) : list group_key :=
  sort_by key_leb (remove_dups (map key_of rows)).

Definition group_of (k : group_key) (rows : list vi_row) : list vi_row :=
  filter (fun r => key_of r = k) rows.

(** [groupby([...]).mean().reset_index()]: one row per distinct key, keys
    in sorted order, every remaining numeric column averaged over the rows
    of the group. *)
Definition groupby_mean (rows : list vi_row) : list vi_row :=
  map (fun k =>
         let g := group_of k rows in
         let '(i, n, y, m) := k in
         {| obs := {| woreda_id := i; year := y; month := m;
                      avg_ndvi := series_mean (map (fun r => avg_ndvi (obs r)) g);
                      avg_savi := series_mean (map (fun r => avg_savi (obs r)) g) |};
            woreda_name := n |})
      (group_keys rows).

(** [sort_values(by=['woreda_id', 'year', 'month'])]. *)
Definition sort_key (r : vi_row) : string * Z * Z :=
  (woreda_id (obs r), year (obs r), month (obs r)).

Definition sort_leb (a b : vi_row) : bool :=
  let '(i1, y1, m1) := sort_key a in
  let '(i2, y2, m2) := sort_key b in
  if String.ltb i1 i2 then true
  else if String.ltb i2 i1 then false
  else if y1 <? y2 then true
  else if y2 <? y1 then false
  else m1 <=? m2.

Definition sort_values (rows : list vi_row) : list vi_row :=
  sort_by sort_leb rows.

(** The body of [if all_vi_data:]: from the list of per-file frames to the
    table written to [woreda_monthly_vegetation_indices.csv]. *)
Definition aggregate (woreda_name_map : gmap string string)
    (all_vi_data : list (list vi_obs)) : list vi_row :=
  let df := concat_frames all_vi_data in
  let df := map_woreda_name woreda_name_map df in
  let df := dropna_woreda_name df in
  let df := groupby_mean df in
  sort_values df.

(** The key of an observation as the specification names it: unit, year and
    month. *)
Definition obs_key (r : vi_obs) : string * Z * Z :=
  (woreda_id r, year r, month r).

(** The same three components of a [groupby] key. *)
Definition key3 (k : group_key) : string * Z * Z :=
  let '(i, _, y, m) := k in (i, y, m).

(** The rows that reach [groupby]. *)
Definition mapped_rows (woreda_name_map : gmap string string)
    (l : list vi_obs) : list vi_row :=
  dropna_woreda_name (map_woreda_name woreda_name_map l).

End Aggregator.

(** ** Notebook 09: exceptions and results *)

(** The Python exceptions that the modelled statements can raise.  Library
    calls may raise any of them. *)
Inductive exn :=
| KeyError (key : string)
| TypeError (msg : string)
| ValueError (msg : string).

Inductive result (A : Type) :=
| Ok (a : A)
| Raise (e : exn).
Arguments Ok {A} a.
Arguments Raise {A} e.

#[global] Instance result_ret : MRet result := fun A a => Ok a.
#[global] Instance result_bind : MBind result := fun A B f m =>
  match m with
  | Ok a => f a
  | Raise e => Raise e
  end.
#[global] Instance result_fmap : FMap result := fun A B f m =>
  match m with
  | Ok a => Ok (f a)
  | Raise e => Raise e
  end.

(** A [for] loop whose body may raise: the first exception ends the loop. *)
Fixpoint foldM {St A : Type} (body : St -> A -> result St) (s : St)
    (l : list A) : result St :=
  match l with
  | [] => Ok s
  | x :: l' => s' ← body s x; foldM body s' l'
  end.

Definition is_ok {A : Type} (r : result A) : bool :=
  match r with Ok _ => true | Raise _ => false end.

(** ** Data frames *)

Module Frame.

(** A cell of a table read by [pd.read_csv]: missing, a number, or text. *)
Inductive cell :=
| NaN
| Num (q : Q)
| Str (s : string).

Definition Series : Type := list cell.

(** Columns in table order; all columns have one length, the number of
    rows.  Rows are addressed by position. *)
Definition DataFrame : Type := list (string * Series).

Definition cell_of_float (v : float64) : cell :=
  match v with Some q => Num q | None => NaN end.

Definition is_nan (c : cell) : bool :=
  match c with NaN => true | _ => false end.

Definition is_str (c : cell) : bool :=
  match c with Str _ => true | _ => false end.

Definition columns (df : DataFrame) : list string := map fst df.

Definition nrows (df : DataFrame) : nat :=
  match df with
  | [] => 0%nat
  | (_, s) :: _ => length s
  end.

(** [df[c]]. *)
Fixpoint getitem (df : DataFrame) (c : string) : result Series :=
  match df with
  | [] => Raise (KeyError c)
  | (n, s) :: df' => if String.eqb n c then Ok s else getitem df' c
  end.

(** [df[c] = s]: replaces the column in place, or appends a new one. *)
Fixpoint setitem (df : DataFrame) (c : string) (s : Series) : DataFrame :=
  match df with
  | [] => [(c, s)]
  | (n, s0) :: df' =>
      if String.eqb n c then (n, s) :: df' else (n, s0) :: setitem df' c s
  end.

(** [df[cols]] with a list of names: the named columns, in the order of
    the list. *)
Definition select (df : DataFrame) (cols : list string) : result DataFrame :=
  mapM (fun c => s ← getitem df c; mret (c, s)) cols.

(** Boolean indexing of one column. *)
Fixpoint take (mask : list bool) (s : Series) : Series :=
  match mask, s with
  | b :: mask', x :: s' => if b then x :: take mask' s' else take mask' s'
  | _, _ => []
  end.

Definition take_rows (mask : list bool) (df : DataFrame) : DataFrame :=
  map (fun p => (fst p, take mask (snd p))) df.

Definition notnull (s : Series) : list bool :=
  map (fun c => negb (is_nan c)) s.

(** [s == n] for a number [n]. *)
Definition eq_num (n : Q) (s : Series) : list bool :=
  map (fun c => match c with Num q => Qeq_bool q n | _ => false end) s.

(** [df.dropna(subset=[c])]. *)
Definition dropna_subset (df : DataFrame) (c : string) : result DataFrame :=
  s ← getitem df c; mret (take_rows (notnull s) df).

(** [s.isnull().any()]. *)
Definition isnull_any (s : Series) : bool := existsb is_nan s.

(** The numbers of a column, in order. *)
Definition nums (s : Series) : list float64 :=
  map (fun c => match c with Num q => Some q | _ => None end) s.

(** [s.mean()]: text in the column is a [TypeError]; otherwise the mean of
    the non-missing values, NaN when there are none. *)
Definition mean (s : Series) : result cell :=
  if existsb is_str s
  then Raise (TypeError "Could not convert to numeric")
  else mret (cell_of_float (series_mean (nums s))).

(** [s.fillna(v)]: filling with NaN changes nothing. *)
Definition fillna (v : cell) (s : Series) : Series :=
  map (fun c => match c with NaN => v | _ => c end) s.

(** [df.isnull().sum().sum() > 0]. *)
Definition has_missing (df : DataFrame) : bool :=
  existsb (fun p => isnull_any (snd p)) df.

(** A two-dimensional numpy array, held column by column. *)
Definition ndarray : Type := list (list float64).

(** [pd.DataFrame(arr, columns=cols, index=idx)] for an index of [n]
    rows. *)
Definition frame_of_ndarray (arr : ndarray) (cols : list string) (n : nat)
    : result DataFrame :=
  if (length arr =? length cols)%nat
     && forallb (fun c => (length c =? n)%nat) arr
  then mret (zip cols (map (map cell_of_float) arr))
  else Raise (ValueError "Shape of passed values does not match").

End Frame.

(** ** Scores *)

(** A Python float used as a score: the selection loop starts from
    [float('inf')] and numpy can return NaN. *)
Inductive score :=
| SNaN
| SNegInf
| SFin (q : Q)
| SPosInf.

(** [a < b] on floats: false as soon as one side is NaN. *)
Definition slt (a b : score) : bool :=
  match a, b with
  | SNaN, _ | _, SNaN => false
  | SNegInf, SNegInf => false
  | SNegInf, _ => true
  | SFin _, SNegInf => false
  | SFin x, SFin y => negb (Qle_bool y x)
  | SFin _, SPosInf => true
  | SPosInf, _ => false
  end.

(** Unary minus. *)
Definition sneg (a : score) : score :=
  match a with
  | SNaN => SNaN
  | SNegInf => SPosInf
  | SFin q => SFin (- q)
  | SPosInf => SNegInf
  end.

(** The [scoring] argument of [cross_val_score]. *)
Inductive scoring :=
| neg_mean_squared_error
| r2
| neg_mean_absolute_error.

(** ** The libraries

    What the notebook calls in scikit-learn, xgboost and numpy.  An estimator
    is a value: [estimator_fit] returns the fitted estimator that
    [model.fit] leaves in [model]; [cross_val_score] works on clones and
    leaves the estimator it is given untouched, so it only returns the
    scores of the folds (the [KFold(n_splits=5, shuffle=True,
    random_state=42)] splitter is part of it). *)
Class Library := {
  Scaler : Type;
  Estimator : Type;
  scaler_fit : Frame.DataFrame -> result Scaler;
  scaler_transform : Scaler -> Frame.DataFrame -> result Frame.ndarray;
  cross_val_score :
    Estimator -> Frame.DataFrame -> Frame.Series -> scoring -> result (list score);
  estimator_fit : Estimator -> Frame.DataFrame -> Frame.Series -> result Estimator;
  estimator_predict : Estimator -> Frame.DataFrame -> result (list float64);
  np_sqrt : score -> score;
  np_mean : list score -> score;
  np_std : list score -> score;
  (** the five estimators of the [models] dict, as constructed there *)
  RandomForestRegressor : Estimator;
  XGBRegressor : Estimator;
  Ridge : Estimator;
  Lasso : Estimator;
  StackingRegressor : Estimator
}.

(** ** Notebook 09, section 3: data preparation *)

Module Preparation.
Import Frame.

Definition target_col : string := "annual_yield_quintals_ha".

Definition excluded : list string :=
  ["woreda_id"; "woreda_name"; "year"; "annual_yield_quintals_ha"]%string.

(** [df_master.dropna(subset=['annual_yield_quintals_ha'])]. *)
Definition df_train_of (df_master : DataFrame) : result DataFrame :=
  dropna_subset df_master target_col.

(** [df_master[df_master['year'] == 2025]]. *)
Definition df_2025_of (df_master : DataFrame) : result DataFrame :=
  yr ← getitem df_master "year";
  mret (take_rows (eq_num 2025 yr) df_master).

(** [[col for col in df_train.columns if col not in [...]]]. *)
Definition feature_cols_of (df_train : DataFrame) : list string :=
  filter (fun col => col ∉ excluded) (columns df_train).

(** What the cell prints that matters downstream. *)
Inductive event :=
| Imputed (col : string) (mean_val : cell)
| MissingValuesWarning.

(** The two feature frames and the output so far. *)
Record frames := {
  X : DataFrame;
  X_2025 : DataFrame;
  printed : list event
}.

(** The body of [for col in feature_cols:]. *)
Definition impute_col (st : frames) (col : string) : result frames :=
  xc ← getitem (X st) col;
  if isnull_any xc then
    mean_val ← mean xc;
    let X' := setitem (X st) col (fillna mean_val xc) in
    yc ← getitem (X_2025 st) col;
    let X_2025' := setitem (X_2025 st) col (fillna mean_val yc) in
    mret {| X := X'; X_2025 := X_2025';
            printed := printed st ++ [Imputed col mean_val] |}
  else mret st.

Definition impute (feature_cols : list string) (st : frames) : result frames :=
  foldM impute_col st feature_cols.

(** The check after the loop: it prints and goes on. *)
Definition check_missing (st : frames) : frames :=
  if has_missing (X st) || has_missing (X_2025 st)
  then {| X := X st; X_2025 := X_2025 st;
          printed := printed st ++ [MissingValuesWarning] |}
  else st.

(** The split of the master table, lines [df_train = ...] to
    [X_2025 = ...]. *)
Record split_data := {
  df_train : DataFrame;
  df_2025 : DataFrame;
  feature_cols : list string;
  y : Series
}.

Definition split (df_master : DataFrame) : result (split_data * frames) :=
  tr ← df_train_of df_master;
  inf ← df_2025_of df_master;
  let cols := feature_cols_of tr in
  x ← select tr cols;
  yv ← getitem tr target_col;
  x25 ← select inf cols;
  mret ({| df_train := tr; df_2025 := inf; feature_cols := cols; y := yv |},
        {| X := x; X_2025 := x25; printed := [] |}).

(** The imputation means among the printed events, by feature. *)
Definition means_of (evs : list event) : list (string * cell) :=
  omap (fun e => match e with
                 | Imputed col m => Some (col, m)
                 | MissingValuesWarning => None
                 end) evs.

(** What the training side of the loop state consists of. *)
Definition training_view (st : frames) : DataFrame * list (string * cell) :=
  (X st, means_of (printed st)).

(** The effect of the loop on one column, from the frames [st] before the
    loop to the frames [st'] after it: filled with the training mean in both
    frames when the training column has a missing value, untouched in both
    otherwise. *)
Definition col_imputed (st st' : frames) (col : string) : Prop :=
  forall xc yc,
    getitem (X st) col = Ok xc -> getitem (X_2025 st) col = Ok yc ->
    if isnull_any xc
    then exists m, mean xc = Ok m
           /\ getitem (X st') col = Ok (fillna m xc)
           /\ getitem (X_2025 st') col = Ok (fillna m yc)
    else getitem (X st') col = Ok xc /\ getitem (X_2025 st') col = Ok yc.

Section WithLibrary.
Context `{Library}.

(** Everything that is fitted: the state of the cell after
    [X_scaled = scaler.fit_transform(X)]. *)
Record fitted := {
  data : split_data;
  imputed : frames;
  scaler : Scaler;
  X_scaled : ndarray
}.

(** [fit_transform] is [fit] followed by [transform] on the same frame. *)
Definition fit_stage (df_master : DataFrame) : result fitted :=
  sp ← split df_master;
  st ← impute (feature_cols (fst sp)) (snd sp);
  let st := check_missing st in
  sc ← scaler_fit (X st);
  xs ← scaler_transform sc (X st);
  mret {| data := fst sp; imputed := st; scaler := sc; X_scaled := xs |}.

(** The state at the end of section 3. *)
Record prepared := {
  fit_of : fitted;
  X_scaled_df : DataFrame;
  X_2025_scaled_df : DataFrame
}.

Definition transform_stage (f : fitted) : result prepared :=
  xs25 ← scaler_transform (scaler f) (X_2025 (imputed f));
  let cols := feature_cols (data f) in
  xdf ← frame_of_ndarray (X_scaled f) cols (nrows (X (imputed f)));
  x25df ← frame_of_ndarray xs25 cols (nrows (X_2025 (imputed f)));
  mret {| fit_of := f; X_scaled_df := xdf; X_2025_scaled_df := x25df |}.

Definition prepare (df_master : DataFrame) : result prepared :=
  f ← fit_stage df_master; transform_stage f.

(** The imputation means that were fitted, by feature. *)
Definition imputation_means (f : fitted) : list (string * cell) :=
  means_of (printed (imputed f)).

(** The statistics of the preprocessing: imputation means, the fitted
    scaler, and the training features before and after scaling. *)
Definition statistics (df_master : DataFrame)
    : result (list (string * cell) * Scaler * DataFrame * ndarray) :=
  f ← fit_stage df_master;
  mret (imputation_means f, scaler f, X (imputed f), X_scaled f).

End WithLibrary.

End Preparation.

(** ** Notebook 09, section 4: model training and cross-validation *)

Module Engine.
Import Frame.

Section WithLibrary.
Context `{Library}.

(** The [models] dict; a Python dict iterates in insertion order. *)
Definition models : list (string * Estimator) :=
  [("Random Forest", RandomForestRegressor);
   ("XGBoost", XGBRegressor);
   ("Ridge", Ridge);
   ("Lasso", Lasso);
   ("Stacking", StackingRegressor)]%string.

(** One entry of [results]. *)
Record cv_row := {
  Model : string;
  Avg_RMSE : score;
  Std_RMSE : score;
  Avg_R2 : score;
  Std_R2 : score;
  Avg_MAE : score;
  Std_MAE : score
}.

(** The variables that the loop updates.  [best_model] is the dict
    [{'Model': name, 'Trained Model': model}], or [None]. *)
Record loop_state := {
  results : list cv_row;
  best_rmse : score;
  best_model : option (string * Estimator)
}.

Definition initial : loop_state :=
  {| results := []; best_rmse := SPosInf; best_model := None |}.

(** [np.mean(np.sqrt(-cross_val_score(..., 'neg_mean_squared_error')))]. *)
Definition avg_rmse_of (mse : list score) : score :=
  np_mean (map (fun s => np_sqrt (sneg s)) mse).

(** The body of [for name, model in models.items():]. *)
Definition train_variant (Xs : DataFrame) (yv : Series) (st : loop_state)
    (entry : string * Estimator) : result loop_state :=
  let name := fst entry in
  let model := snd entry in
  mse ← cross_val_score model Xs yv neg_mean_squared_error;
  let rmse_scores := map (fun s => np_sqrt (sneg s)) mse in
  r2_scores ← cross_val_score model Xs yv r2;
  mae ← cross_val_score model Xs yv neg_mean_absolute_error;
  let mae_scores := map sneg mae in
  let avg_rmse := np_mean rmse_scores in
  let row := {| Model := name;
                Avg_RMSE := avg_rmse; Std_RMSE := np_std rmse_scores;
                Avg_R2 := np_mean r2_scores; Std_R2 := np_std r2_scores;
                Avg_MAE := np_mean mae_scores; Std_MAE := np_std mae_scores |} in
  trained ← estimator_fit model Xs yv;
  if slt avg_rmse (best_rmse st)
  then mret {| results := results st ++ [row];
               best_rmse := avg_rmse;
               best_model := Some (name, trained) |}
  else mret {| results := results st ++ [row];
               best_rmse := best_rmse st;
               best_model := best_model st |}.

Definition training_loop (Xs : DataFrame) (yv : Series)
    (catalog : list (string * Estimator)) : result loop_state :=
  foldM (train_variant Xs yv) initial catalog.

(** The mean cross-validated RMSE that the loop computes for a variant. *)
Definition cv_rmse (Xs : DataFrame) (yv : Series) (model : Estimator)
    : result score :=
  avg_rmse_of <$> cross_val_score model Xs yv neg_mean_squared_error.

(** The library calls of one pass of the loop, in order: the first exception
    that training the variant raises, or else the estimator refitted on
    [Xs] and [yv]. *)
Definition variant_result (Xs : DataFrame) (yv : Series) (model : Estimator)
    : result Estimator :=
  _ ← cross_val_score model Xs yv neg_mean_squared_error;
  _ ← cross_val_score model Xs yv r2;
  _ ← cross_val_score model Xs yv neg_mean_absolute_error;
  estimator_fit model Xs yv.

(** The selection rule, for the variant at position [i] of the catalog with
    mean RMSE [s]: [s] is below [+inf], no variant of the catalog has a mean
    RMSE below [s], and [s] is strictly below the mean RMSE of every earlier
    variant that is itself below [+inf]. *)
Definition designated (Xs : DataFrame) (yv : Series)
    (catalog : list (string * Estimator)) (i : nat) (s : score) : Prop :=
  slt s SPosInf = true
  /\ (forall j e s', catalog !! j = Some e ->
        cv_rmse Xs yv (snd e) = Ok s' -> slt s' s = false)
  /\ (forall j e s', (j < i)%nat -> catalog !! j = Some e ->
        cv_rmse Xs yv (snd e) = Ok s' -> slt s' SPosInf = true ->
        slt s s' = true).

(** What holds of the loop variables after the variants of [catalog]. *)
Definition loop_invariant (Xs : DataFrame) (yv : Series)
    (catalog : list (string * Estimator)) (st : loop_state) : Prop :=
  match best_model st with
  | None =>
      best_rmse st = SPosInf
      /\ forall j e s, catalog !! j = Some e ->
           cv_rmse Xs yv (snd e) = Ok s -> slt s SPosInf = false
  | Some best =>
      exists i m,
        catalog !! i = Some (fst best, m)
        /\ estimator_fit m Xs yv = Ok (snd best)
        /\ cv_rmse Xs yv m = Ok (best_rmse st)
        /\ designated Xs yv catalog i (best_rmse st)
  end.

(** Ascending order of [sort_values(by='Avg RMSE')], NaN last. *)
Definition rmse_leb (a b : cv_row) : bool :=
  match Avg_RMSE a, Avg_RMSE b with
  | _, SNaN => true
  | SNaN, _ => false
  | x, y => negb (slt y x)
  end.

(** What section 4 leaves behind: the comparison table, the winner, and the
    three pickled artifacts. *)
Record trained := {
  df_results : list cv_row;
  winner : string * Estimator;
  saved_model : Estimator;
  saved_scaler : Scaler;
  saved_feature_cols : list string
}.

(** After the loop: [best_model['Model']] raises when no variant was
    selected. *)
Definition train_stage (catalog : list (string * Estimator))
    (p : Preparation.prepared) : result trained :=
  st ← training_loop (Preparation.X_scaled_df p)
         (Preparation.y (Preparation.data (Preparation.fit_of p))) catalog;
  match best_model st with
  | None => Raise (TypeError "'NoneType' object is not subscriptable")
  | Some best =>
      mret {| df_results := sort_by rmse_leb (results st);
              winner := best;
              saved_model := snd best;
              saved_scaler := Preparation.scaler (Preparation.fit_of p);
              saved_feature_cols :=
                Preparation.feature_cols (Preparation.data (Preparation.fit_of p)) |}
  end.

End WithLibrary.
End Engine.

(** ** Notebook 09, section 5: the 2025 prediction *)

Module Predictor.
Import Frame.

Definition prediction_col : string := "predicted_yield_quintals_ha".

Definition output_cols : list string :=
  ["woreda_id"; "woreda_name"; "year"; "predicted_yield_quintals_ha"]%string.

(** [max(0, x)]: Python keeps [0] unless [x > 0] holds, so NaN gives [0];
    comparing text with a number raises. *)
Definition clamp (x : cell) : result cell :=
  match x with
  | Num q => mret (if negb (Qle_bool q 0) then Num q else Num 0)
  | NaN => mret (Num 0)
  | Str _ => Raise (TypeError "'>' not supported between 'str' and 'int'")
  end.

(** The value [c] emitted for a raw prediction [r], as the specification
    states it: a number, never negative, [0] for a negative prediction and
    the prediction itself otherwise; a NaN prediction comes out as [0]. *)
Definition emitted_for (r : float64) (c : cell) : Prop :=
  exists v, c = Num v /\ (0 <= v)%Q /\
    match r with
    | Some x => ((x < 0)%Q -> v = 0%Q) /\ ((0 <= x)%Q -> (v == x)%Q)
    | None => v = 0%Q
    end.

Section WithLibrary.
Context `{Library}.

(** The frame [df_2025] with its prediction column, and the four columns
    written to [sidama_coffee_yield_predictions_2025.csv]. *)
Definition predict_stage (best : string * Estimator)
    (X_2025_scaled_df df_2025 : DataFrame) : result (DataFrame * DataFrame) :=
  predictions_2025 ← estimator_predict (snd best) X_2025_scaled_df;
  if negb (length predictions_2025 =? nrows df_2025)%nat
  then Raise (ValueError "Length of values does not match length of index")
  else
    let df := setitem df_2025 prediction_col
                (map cell_of_float predictions_2025) in
    col ← getitem df prediction_col;
    clamped ← mapM clamp col;
    let df := setitem df prediction_col clamped in
    out ← select df output_cols;
    mret (df, out).

(** Sections 4 and 5, from the state that section 3 leaves. *)
Definition train_and_predict (catalog : list (string * Estimator))
    (p : Preparation.prepared)
    : result (Preparation.prepared * Engine.trained * DataFrame) :=
  t ← Engine.train_stage catalog p;
  o ← predict_stage (Engine.winner t) (Preparation.X_2025_scaled_df p)
        (Preparation.df_2025 (Preparation.data (Preparation.fit_of p)));
  mret (p, t, snd o).

(** Sections 3 to 5 in sequence; [None] is the outcome of a notebook whose
    master file is not found, where every section is skipped.  Section 6
    only prints. *)
Definition notebook (catalog : list (string * Estimator))
    (df_master : option DataFrame)
    : result (option (Preparation.prepared * Engine.trained * DataFrame)) :=
  match df_master with
  | None => mret None
  | Some df =>
      p ← Preparation.prepare df;
      r ← train_and_predict catalog p;
      mret (Some r)
  end.

End WithLibrary.
End Predictor.

(** ** A small library instance and example tables

    A deterministic stand-in for the libraries, on which the model runs by
    computation: a scaler that keeps the mean and the variance of every
    column, and estimators that carry their cross-validation scores, may be
    set to fail, remember what they were fitted on, and predict one
    constant.  The estimators do no folding and accept missing values:
    scikit-learn's [KFold(n_splits=5)] wants five rows at least and its
    estimators refuse NaN, so a run of this instance on a small table
    shows how the notebook passes values on, not what scikit-learn would
    answer there.  It serves the examples only; the theorems hold for
    every instance of [Library]. *)

Module Example.
Import Frame.

(** Square root, exact on the squares of integers (the integer part of the
    root otherwise). *)
Definition sqrt_score (a : score) : score :=
  match a with
  | SFin q => if Qle_bool 0 q then SFin (inject_Z (Z.sqrt (Qfloor q))) else SNaN
  | SNegInf => SNaN
  | other => other
  end.

Definition finite_part (l : list score) : list float64 :=
  map (fun a => match a with SFin q => Some q | _ => None end) l.

Definition mean_score (l : list score) : score :=
  if forallb (fun a => match a with SFin _ => true | _ => false end) l
  then match series_mean (finite_part l) with
       | Some q => SFin (Qred q)
       | None => SNaN
       end
  else SNaN.

Definition variance (m : Q) (vs : list Q) : Q :=
  Qred (arith_mean (map (fun v => (v - m) * (v - m))%Q vs)).

Definition std_score (l : list score) : score :=
  match mean_score l with
  | SFin m => sqrt_score (SFin (variance m (present (finite_part l))))
  | other => other
  end.

(** [mean_] and [var_] of a column; text in a column cannot be scaled. *)
Definition column_stats (s : Series) : result (float64 * float64) :=
  if existsb is_str s then Raise (ValueError "could not convert string to float")
  else match series_mean (nums s) with
       | Some m => mret (Some (Qred m), Some (variance m (present (nums s))))
       | None => mret (None, None)
       end.

Definition fit_scaler (df : DataFrame) : result (list (float64 * float64)) :=
  if (nrows df =? 0)%nat
  then Raise (ValueError "Found array with 0 sample(s)")
  else mapM (fun p => column_stats (snd p)) df.

(** Centred, and divided by [sqrt_score] of the variance unless that is
    zero; NaN stays NaN. *)
Definition scale_cell (st : float64 * float64) (c : cell) : float64 :=
  match c, st with
  | Num q, (Some m, Some v) =>
      match sqrt_score (SFin v) with
      | SFin sd =>
          if Qeq_bool sd 0 then Some (Qred (q - m))
          else Some (Qred ((q - m) / sd))
      | _ => None
      end
  | _, _ => None
  end.

Definition transform (sc : list (float64 * float64)) (df : DataFrame)
    : result ndarray :=
  if (nrows df =? 0)%nat
  then Raise (ValueError "Found array with 0 sample(s)")
  else if negb (length sc =? length df)%nat
  then Raise (ValueError "X has a different number of features")
  else if existsb (fun p => existsb is_str (snd p)) df
  then Raise (ValueError "could not convert string to float")
  else mret (zip_with (fun st p => map (scale_cell st) (snd p)) sc df).

Record estimator := {
  neg_mse : list score;
  cv_raises : option exn;
  fit_raises : option exn;
  fitted_on : option (DataFrame * Series);
  constant : float64
}.

Definition cv (m : estimator) (_ : DataFrame) (_ : Series) (sc : scoring)
    : result (list score) :=
  match cv_raises m with
  | Some e => Raise e
  | None =>
      match sc with
      | neg_mean_squared_error => mret (neg_mse m)
      | r2 => mret (map (fun _ => SFin 0) (neg_mse m))
      | neg_mean_absolute_error =>
          mret (map (fun a => sneg (sqrt_score (sneg a))) (neg_mse m))
      end
  end.

Definition fit (m : estimator) (Xs : DataFrame) (yv : Series) : result estimator :=
  match fit_raises m with
  | Some e => Raise e
  | None => mret {| neg_mse := neg_mse m; cv_raises := cv_raises m;
                    fit_raises := fit_raises m; fitted_on := Some (Xs, yv);
                    constant := constant m |}
  end.

Definition predict (m : estimator) (Xs : DataFrame) : result (list float64) :=
  match fitted_on m with
  | None => Raise (ValueError "This estimator instance is not fitted yet")
  | Some _ => mret (replicate (nrows Xs) (constant m))
  end.

(** An unfitted estimator with the given fold scores (mean squared errors,
    which [cross_val_score] returns negated) and constant prediction. *)
Definition variant (scores : list Z) (c : Q) : estimator :=
  {| neg_mse := map (fun z => SFin (inject_Z (- z))) scores;
     cv_raises := None; fit_raises := None; fitted_on := None;
     constant := Some c |}.

(** An estimator whose [fit] raises [e]. *)
Definition failing (e : exn) : estimator :=
  {| neg_mse := []; cv_raises := None; fit_raises := Some e;
     fitted_on := None; constant := None |}.

#[local] Instance lib : Library := {|
  Scaler := list (float64 * float64);
  Estimator := estimator;
  scaler_fit := fit_scaler;
  scaler_transform := transform;
  cross_val_score := cv;
  estimator_fit := fit;
  estimator_predict := predict;
  np_sqrt := sqrt_score;
  np_mean := mean_score;
  np_std := std_score;
  RandomForestRegressor := variant [16; 16] 4;
  XGBRegressor := variant [9; 9] (-3);
  Ridge := variant [9; 9] 5;
  Lasso := variant [25; 25] 6;
  StackingRegressor := variant [36; 4] 7
|}.

Definition num (z : Z) : cell := Num (inject_Z z).

(** A master table: three rows with a yield, two rows of 2025 without.  In
    the training rows [ndvi_mean] has a missing value and [rain_total] has
    none; the first 2025 row misses both. *)
Definition master : DataFrame :=
  [("woreda_id", [Str "W1"; Str "W2"; Str "W1"; Str "W1"; Str "W2"]);
   ("woreda_name", [Str "Aleta"; Str "Bensa"; Str "Aleta"; Str "Aleta"; Str "Bensa"]);
   ("year", [num 2023; num 2023; num 2024; num 2025; num 2025]);
   ("ndvi_mean", [num 1; NaN; num 3; NaN; num 2]);
   ("rain_total", [num 10; num 20; num 30; NaN; num 40]);
   ("annual_yield_quintals_ha", [num 5; num 7; num 9; NaN; NaN])]%string.

(** The same training rows, other feature values in the 2025 rows. *)
Definition master' : DataFrame :=
  [("woreda_id", [Str "W1"; Str "W2"; Str "W1"; Str "W1"; Str "W2"]);
   ("woreda_name", [Str "Aleta"; Str "Bensa"; Str "Aleta"; Str "Aleta"; Str "Bensa"]);
   ("year", [num 2023; num 2023; num 2024; num 2025; num 2025]);
   ("ndvi_mean", [num 1; NaN; num 3; num 100; NaN]);
   ("rain_total", [num 10; num 20; num 30; num 7; num 8]);
   ("annual_yield_quintals_ha", [num 5; num 7; num 9; NaN; NaN])]%string.

(** A catalog whose second variant fails to fit. *)
Definition catalog_with_failure : list (string * estimator) :=
  [("Random Forest", variant [16; 16] 4);
   ("XGBoost", failing (ValueError "did not converge"));
   ("Ridge", variant [9; 9] 5)]%string.

(** A table of two feature columns alone, without the yield and the year
    column. *)
Definition shuffled : DataFrame :=
  [("rain_total", [num 40]); ("ndvi_mean", [num 2])]%string.

(** Rows of two export files: a duplicated key for woreda W1, and a woreda
    that the boundary file does not know. *)
Definition vi_files : list (list Aggregator.vi_obs) :=
  [[Aggregator.Build_vi_obs "W1" 2023 5 (Some 1%Q) (Some 4%Q);
    Aggregator.Build_vi_obs "W9" 2023 5 (Some 8%Q) (Some 8%Q)];
   [Aggregator.Build_vi_obs "W1" 2023 5 (Some 3%Q) (Some 6%Q);
    Aggregator.Build_vi_obs "W1" 2023 6 (Some 5%Q) None]]%string.

Definition boundaries : gmap string string :=
  {["W1" := "Aleta"]}%string.

End Example.

(** ** Notebook 05: the control flow of the cell *)

(** The notebook is one code cell.  Its sections 2 and 3 are guarded by
    [gdf_woredas is not None] (l.76 and l.87), and [gdf_woredas] is bound
    to a frame only by the first statement of the [try:] of l.57, whose
    three handlers (l.64-70) print and go on.  What the cell reads from the
    outside is a variable of the section below: the result of each call
    into geopandas, pandas and [src.gcs_io], were it made. *)

Module Notebook05.

Inductive exception :=
| NameError (name : string)
| FileNotFoundError
| ValueError (msg : string)
| OtherException (msg : string).

(** The lines the cell prints that tell its branches apart (the lines of
    the loop over the files are left out). *)
Inductive message :=
| LoadedBoundaries                                        (* l.62 *)
| BoundaryFileNotFound                                    (* l.65 *)
| BoundaryDataError (msg : string)                        (* l.68 *)
| UnexpectedLoadError (e : exception)                     (* l.70 *)
| DownloadComplete                                        (* l.77-79 *)
| SkippingDownload                                        (* l.81 *)
| FinishedProcessing (processed_count error_count : nat)  (* l.143-150 *)
| NoFilesProcessed                                        (* l.153 *)
| SkippingProcessing.                                     (* l.155 *)

(** The names bound when the [try:] of l.57 starts: the imports of
    l.29-32 and l.39 and the assignments of l.35 and l.44-56.  The notebook
    imports nothing else; in particular no statement binds [gpd]. *)
Definition bound_names : list string :=
  [ "pd"; "np"; "os"; "sys"; "project_root"; "download_gcs_files";
    "BUCKET_NAME"; "START_DATE"; "END_DATE"; "processed_data_dir";
    "gee_exports_dir"; "sentinel2_export_gcs_folder";
    "sentinel2_download_dir"; "PROCESSED_WOREDAS_GEOJSON_PATH";
    "gdf_woredas" ].

(** Evaluating a name raises [NameError] when nothing binds it. *)
Definition evaluate_name (x : string) : option exception :=
  if bool_decide (x ∈ bound_names) then None else Some (NameError x).

Section Run.
Context {GeoDataFrame : Type}.

(** [gpd.read_file(PROCESSED_WOREDAS_GEOJSON_PATH)], l.58. *)
Variable read_file : exception + GeoDataFrame.
(** [gdf_woredas.columns], l.59. *)
Variable gdf_columns : GeoDataFrame -> list string.
(** [gdf_woredas['Woreda_ID'] = gdf_woredas['Woreda_ID'].astype(str)],
    l.61. *)
Variable astype_str_ids : GeoDataFrame -> exception + GeoDataFrame.
(** [gdf_woredas.set_index('Woreda_ID')['Woreda Name'].to_dict()], l.63. *)
Variable to_dict : GeoDataFrame -> exception + gmap string string.
(** [download_gcs_files(...)], l.78: the exception it raises, if any. *)
Variable download_gcs_files : option exception.
(** The loop over the downloaded files, l.88-126: the frames it leaves in
    [all_vi_data], as the typed rows of [Aggregator], with
    [processed_count] and [error_count]. *)
Variable file_loop : list (list Aggregator.vi_obs) * nat * nat.

(** The variables of the cell after the [try:] statement; [woreda_name_map]
    is [None] while the name is unbound. *)
Record variables := {
  gdf_woredas : option GeoDataFrame;
  woreda_name_map : option (gmap string string);
  printed : list message
}.

(** The handlers of l.64-70, tried in order: only the first resets
    [gdf_woredas]; the other two print and leave it as it is. *)
Definition handle (before : list message) (gdf : option GeoDataFrame)
    (e : exception) : variables :=
  match e with
  | FileNotFoundError =>
      {| gdf_woredas := None; woreda_name_map := None;
         printed := before ++ [BoundaryFileNotFound] |}
  | ValueError msg =>
      {| gdf_woredas := gdf; woreda_name_map := None;
         printed := before ++ [BoundaryDataError msg] |}
  | _ =>
      {| gdf_woredas := gdf; woreda_name_map := None;
         printed := before ++ [UnexpectedLoadError e] |}
  end.

(** l.56-70.  The right-hand side of l.58 is evaluated before the
    assignment: when it raises, [gdf_woredas] keeps the [None] of l.56. *)
Definition load : variables :=
  match evaluate_name "gpd" with
  | Some e => handle [] None e
  | None =>
      match read_file with
      | inl e => handle [] None e
      | inr gdf =>
          if bool_decide ("Woreda_ID" ∉ gdf_columns gdf)
             || bool_decide ("Woreda Name" ∉ gdf_columns gdf)
          then handle [] (Some gdf)
                 (ValueError "Woredas GeoDataFrame must contain 'Woreda_ID' and 'Woreda Name' columns.")
          else
            match astype_str_ids gdf with
            | inl e => handle [] (Some gdf) e
            | inr gdf' =>
                match to_dict gdf' with
                | inl e => handle [LoadedBoundaries] (Some gdf') e
                | inr names =>
                    {| gdf_woredas := Some gdf';
                       woreda_name_map := Some names;
                       printed := [LoadedBoundaries] |}
                end
            end
      end
  end.

(** How the cell ends: it runs to its last line, having written the table
    to [woreda_monthly_vegetation_indices.csv] (l.149) or nothing, or an
    exception outside the [try:] stops it. *)
Inductive outcome :=
| Completed (out : list message) (written : option (list Aggregator.vi_row))
| Aborted (out : list message) (e : exception).

(** l.56-155. *)
Definition run : outcome :=
  let vars := load in
  match gdf_woredas vars with
  | None =>
      Completed (printed vars ++ [SkippingDownload; SkippingProcessing]) None
  | Some _ =>
      match download_gcs_files with
      | Some e => Aborted (printed vars) e
      | None =>
          let '(all_vi_data, processed_count, error_count) := file_loop in
          match all_vi_data with
          | [] =>
              Completed (printed vars ++ [DownloadComplete; NoFilesProcessed])
                None
          | _ =>
              match woreda_name_map vars with
              | None =>
                  Aborted (printed vars ++ [DownloadComplete])
                    (NameError "woreda_name_map")
              | Some names =>
                  Completed
                    (printed vars ++
                     [DownloadComplete;
                      FinishedProcessing processed_count error_count])
                    (Some (Aggregator.aggregate names all_vi_data))
              end
          end
      end
  end.

End Run.
End Notebook05.

(** ** Notebook 05, section 3: the names of the export files *)

Module Loader.

(** [s.startswith(p)] is [String.prefix p s]; [s.endswith(p)]. *)
Definition ends_with (p s : string) : bool :=
  String.prefix (String.rev p) (String.rev s).

(** [old in s]. *)
Fixpoint occurs (old s : string) : bool :=
  match s with
  | EmptyString => String.prefix old s
  | String _ s' => String.prefix old s || occurs old s'
  end.

(** [s.replace(old, new)] for a non-empty [old]: the occurrences of [old]
    are replaced from left to right, without overlap.  [skip] counts the
    characters of a replaced occurrence that are still to be dropped. *)
Fixpoint replace_from (old new : string) (skip : nat) (s : string) : string :=
  match s with
  | EmptyString => EmptyString
  | String c s' =>
      match skip with
      | S k => replace_from old new k s'
      | O =>
          if String.prefix old s
          then new +:+ replace_from old new (String.length old - 1) s'
          else String c (replace_from old new 0 s')
      end
  end.

Definition replace (old new s : string) : string := replace_from old new 0 s.

(** [filename.replace('sentinel2_', '').replace('.csv', '')]. *)
Definition infer_id (filename : string) : string :=
  replace ".csv" "" (replace "sentinel2_" "" filename).

(** [filename.startswith('sentinel2_') and filename.endswith('.csv')]. *)
Definition is_export (filename : string) : bool :=
  String.prefix "sentinel2_" filename && ends_with ".csv" filename.

End Loader.

(** ** Notebook 09, section 6: feature importance *)

(** The attributes of a fitted estimator that section 6 reads; [None] where
    the estimator has no such attribute.  [estimators] is the list given to
    the [StackingRegressor] constructor, of which only the length is used. *)
Class Attributes `{Library} := {
  feature_importances_ : Estimator -> option (list float64);
  coef_ : Estimator -> option (list float64);
  final_estimator_coef_ : Estimator -> option (option (list float64));
  estimators : Estimator -> option nat
}.

Module Importance.
Import Frame.

(** What the section leaves on the screen, or the exception that ends it. *)
Inductive outcome :=
| Table (rows : list (string * float64))
| Nothing
| AttributeError
| LengthError.

(** Descending order of [sort_values(..., ascending=False)] on the values
    [key v], NaN last. *)
Definition desc_leb (key : Q -> Q) (a b : string * float64) : bool :=
  match snd a, snd b with
  | _, None => true
  | None, Some _ => false
  | Some x, Some y => Qle_bool (key y) (key x)
  end.

(** [pd.DataFrame({'Feature': names, col: values})]: the two columns must
    have one length. *)
Definition two_columns (names : list string) (values : list float64)
    : option (list (string * float64)) :=
  if (length names =? length values)%nat then Some (zip names values) else None.

(** [f'base_model_{i}' for i in range(n)]. *)
Definition meta_feature_names (n : nat) : list string :=
  map (fun i => "base_model_" +:+ NilEmpty.string_of_uint (Nat.to_uint i)) (seq 0 n).

Section WithAttributes.
Context `{Attributes}.

(** The [if]/[elif] chain on [best_model['Model']]. *)
Definition report (best : string * Estimator) (feature_cols : list string)
    : outcome :=
  let name := fst best in
  let model := snd best in
  if bool_decide (name ∈ ["Random Forest"; "XGBoost"]%string) then
    match feature_importances_ model with
    | None => AttributeError
    | Some imp =>
        match two_columns feature_cols imp with
        | None => LengthError
        | Some df => Table (firstn 10 (sort_by (desc_leb id) df))
        end
    end
  else if bool_decide (name ∈ ["Ridge"; "Lasso"]%string) then
    match coef_ model with
    | None => AttributeError
    | Some coefficients =>
        match two_columns feature_cols coefficients with
        | None => LengthError
        | Some df => Table (firstn 10 (sort_by (desc_leb Qabs) df))
        end
    end
  else if String.eqb name "Stacking" then
    match final_estimator_coef_ model with
    | None => AttributeError
    | Some None => Nothing
    | Some (Some coefficients) =>
        match estimators model with
        | None => AttributeError
        | Some n =>
            match two_columns (meta_feature_names n) coefficients with
            | None => LengthError
            | Some df => Table (sort_by (desc_leb Qabs) df)
            end
        end
    end
  else Nothing.

End WithAttributes.
End Importance.

(** ** Orders and predicates named in the statements *)

(** The strict lexicographic order on (unit, year, month). *)
Definition key_lt (a b : string * Z * Z) : Prop :=
  let '(i1, y1, m1) := a in
  let '(i2, y2, m2) := b in
  String.ltb i1 i2 = true
  \/ (i1 = i2 /\ (y1 < y2 \/ (y1 = y2 /\ m1 < m2))).

(** A table whose columns all have the number of rows of the table. *)
Definition rectangular (df : Frame.DataFrame) : Prop :=
  Forall (fun p => length (snd p) = Frame.nrows df) df.

(** Two float64 values that are both missing or equal as numbers, and two
    rows of the aggregated table with the same identifiers and such
    values. *)
Definition float_equiv (a b : float64) : Prop :=
  match a, b with
  | Some x, Some y => (x == y)%Q
  | None, None => True
  | _, _ => False
  end.

Definition row_equiv (r1 r2 : Aggregator.vi_row) : Prop :=
  Aggregator.sort_key r1 = Aggregator.sort_key r2
  /\ Aggregator.woreda_name r1 = Aggregator.woreda_name r2
  /\ float_equiv (Aggregator.avg_ndvi (Aggregator.obs r1))
                 (Aggregator.avg_ndvi (Aggregator.obs r2))
  /\ float_equiv (Aggregator.avg_savi (Aggregator.obs r1))
                 (Aggregator.avg_savi (Aggregator.obs r2)).

(** ** Further examples for notebook 09 *)

Module Example09.
Import Frame Example.

(** A variant whose folds score NaN. *)
Definition undetermined : estimator :=
  {| neg_mse := [SNaN; SNaN]; cv_raises := None; fit_raises := None;
     fitted_on := None; constant := Some 1%Q |}.

Definition catalog_undetermined : list (string * estimator) :=
  [("Ridge", undetermined); ("Lasso", undetermined)]%string.

(** Importances and coefficients of the example estimators: its fold scores
    as numbers. *)
Definition weights (m : estimator) : list float64 := finite_part (neg_mse m).

#[local] Instance attrs : Attributes (H := lib) :=
  Build_Attributes lib
    (fun m => Some (weights m))
    (fun m => Some (weights m))
    (fun m => Some (Some (weights m)))
    (fun _ => Some 2%nat).

End Example09.

(** * Properties *)

(** ** Sorting and filtering *)

Section SortFacts.
Context {A : Type} (leb : A -> A -> bool).

Lemma insert_sorted_perm x l : insert_sorted leb x l ≡ₚ x :: l.
Proof.
  induction l as [|y l IH]; simpl; [done|].
  destruct (leb x y); [done|].
  rewrite IH. apply Permutation_swap.
Qed.

Lemma sort_by_perm l : sort_by leb l ≡ₚ l.
Proof.
  induction l as [|x l IH]; simpl; [done|].
  by rewrite insert_sorted_perm, IH.
Qed.
End SortFacts.

Lemma filter_eq_NoDup {A : Type} `{EqDecision A} (k : A) (l : list A) :
  NoDup l -> k ∈ l -> filter (fun x => x = k) l = [k].
Proof.
  induction 1 as [|x l Hx Hnd IH]; intros Hin.
  - by apply elem_of_nil in Hin.
  - rewrite filter_cons. destruct (decide (x = k)) as [->|Hne].
    + f_equal. clear IH Hin Hnd. induction l as [|z l IH]; [done|].
      rewrite filter_cons. destruct (decide (z = k)) as [->|_].
      * exfalso. apply Hx. left.
      * apply IH. intros Hk. apply Hx. by right.
    + apply IH. apply elem_of_cons in Hin as [->|Hin]; [done|exact Hin].
Qed.

Lemma filter_ext_elem {A : Type} (P Q : A -> Prop)
    `{forall x, Decision (P x)} `{forall x, Decision (Q x)} (l : list A) :
  (forall x, x ∈ l -> P x <-> Q x) -> filter P l = filter Q l.
Proof.
  induction l as [|x l IH]; intros Hext; [done|].
  rewrite !filter_cons.
  assert (Htl : filter P l = filter Q l).
  { apply IH. intros z Hz. apply Hext. by right. }
  destruct (decide (P x)) as [Hp|Hp], (decide (Q x)) as [Hq|Hq];
    rewrite ?Htl; try done.
  - exfalso. apply Hq, (Hext x); [left|done].
  - exfalso. apply Hp, (Hext x); [left|done].
Qed.

Lemma series_mean_present (vs : list Q) :
  vs <> [] -> series_mean (map Some vs) = Some (arith_mean vs).
Proof.
  intros Hne. unfold series_mean, present.
  assert (Hp : omap id (map Some vs) = vs).
  { clear Hne. induction vs as [|v vs IH]; [done|]. simpl. f_equal. exact IH. }
  rewrite Hp. by destruct vs.
Qed.

(** ** The aggregator of notebook 05 *)

Section AggregatorFacts.
Import Aggregator.

Variable woreda_name_map : gmap string string.

Abbreviation mapped_rows := (Aggregator.mapped_rows woreda_name_map).

Lemma mapped_rows_cons r l :
  mapped_rows (r :: l) =
  match woreda_name_map !! woreda_id r with
  | Some n => {| obs := r; woreda_name := n |} :: mapped_rows l
  | None => mapped_rows l
  end.
Proof.
  unfold Aggregator.mapped_rows, dropna_woreda_name, map_woreda_name. simpl.
  by destruct (woreda_name_map !! woreda_id r).
Qed.

Lemma mapped_rows_elem r l :
  r ∈ mapped_rows l ->
  woreda_name_map !! woreda_id (obs r) = Some (woreda_name r) /\ obs r ∈ l.
Proof.
  induction l as [|o l IH]; intros Hin.
  - by apply elem_of_nil in Hin.
  - rewrite mapped_rows_cons in Hin.
    destruct (woreda_name_map !! woreda_id o) as [n|] eqn:Hn.
    + apply elem_of_cons in Hin as [->|Hin]; simpl.
      * split; [done|left].
      * destruct (IH Hin) as [? ?]. split; [done|by right].
    + destruct (IH Hin) as [? ?]. split; [done|by right].
Qed.

Lemma mapped_rows_intro o n l :
  o ∈ l -> woreda_name_map !! woreda_id o = Some n ->
  {| obs := o; woreda_name := n |} ∈ mapped_rows l.
Proof.
  intros Hin Hn. induction l as [|o' l IH].
  - by apply elem_of_nil in Hin.
  - rewrite mapped_rows_cons. apply elem_of_cons in Hin as [<-|Hin].
    + rewrite Hn. left.
    + destruct (woreda_name_map !! woreda_id o'); [right|]; by apply IH.
Qed.

(** Unmappable rows make no difference to the rows that reach [groupby]. *)
Lemma mapped_rows_filter l :
  mapped_rows (filter (fun o => is_Some (woreda_name_map !! woreda_id o)) l) =
  mapped_rows l.
Proof.
  induction l as [|o l IH]; [done|].
  rewrite filter_cons, (mapped_rows_cons o l).
  destruct (decide _) as [[n Hn]|Hno].
  - by rewrite mapped_rows_cons, Hn, IH.
  - destruct (woreda_name_map !! woreda_id o) eqn:Hn; [|exact IH].
    exfalso. apply Hno. by eexists.
Qed.

(** The group of a key holds the observations of its unit, year and month,
    in input order. *)
Lemma mapped_rows_group i n y mo l :
  woreda_name_map !! i = Some n ->
  map obs (group_of (i, n, y, mo) (mapped_rows l)) =
  filter (fun r => obs_key r = (i, y, mo)) l.
Proof.
  intros Hn. unfold group_of. induction l as [|o l IH]; [done|].
  rewrite mapped_rows_cons, (filter_cons _ o).
  destruct (decide (obs_key o = (i, y, mo))) as [Hk|Hk].
  - injection Hk as Hi Hy Hm. rewrite Hi, Hn, filter_cons.
    destruct (decide _) as [_|Hne]; simpl.
    + by rewrite IH.
    + exfalso. apply Hne. unfold key_of. simpl. by rewrite Hi, Hy, Hm.
  - destruct (woreda_name_map !! woreda_id o) as [n'|] eqn:Hn'; [|exact IH].
    rewrite filter_cons. destruct (decide _) as [He|_]; [|exact IH].
    exfalso. apply Hk. unfold key_of in He. simpl in He.
    injection He as Hi _ Hy Hm. unfold obs_key. by rewrite Hi, Hy, Hm.
Qed.

Lemma group_keys_elem k rows : k ∈ group_keys rows <-> k ∈ map key_of rows.
Proof.
  unfold group_keys. by rewrite sort_by_perm, elem_of_remove_dups.
Qed.

Lemma group_keys_NoDup rows : NoDup (group_keys rows).
Proof.
  unfold group_keys. rewrite sort_by_perm. apply NoDup_remove_dups.
Qed.

(** The name of a unit is a function of its id, so the rows of the grouped
    table with a given unit, year and month are those of one [groupby]
    key. *)
Lemma groupby_mean_filter i n y mo l :
  woreda_name_map !! i = Some n ->
  filter (fun r => sort_key r = (i, y, mo)) (groupby_mean (mapped_rows l)) =
  map (fun k =>
         {| obs := {| woreda_id := i; year := y; month := mo;
              avg_ndvi := series_mean
                (map avg_ndvi (filter (fun r => obs_key r = (i, y, mo)) l));
              avg_savi := series_mean
                (map avg_savi (filter (fun r => obs_key r = (i, y, mo)) l)) |};
            woreda_name := n |})
      (filter (fun k => k = (i, n, y, mo)) (group_keys (mapped_rows l))).
Proof.
  intros Hn. unfold groupby_mean.
  assert (Hkeys : forall k, k ∈ group_keys (mapped_rows l) ->
            key3 k = (i, y, mo) <-> k = (i, n, y, mo)).
  { intros [[[i' n'] y'] m'] Hk. apply group_keys_elem in Hk.
    apply list_elem_of_In, in_map_iff in Hk as (r & Hr & Hin).
    apply list_elem_of_In, mapped_rows_elem in Hin as [Hname _].
    unfold key_of in Hr. injection Hr as <- <- <- <-. simpl. split.
    - intros [= Hi Hy Hm]. rewrite Hi in Hname. by simplify_eq.
    - by intros [= -> _ -> ->]. }
  rewrite <- (filter_ext_elem _ _ _ Hkeys).
  induction (group_keys (mapped_rows l)) as [|k ks IH]; [done|].
  simpl. rewrite !filter_cons.
  destruct k as [[[i' n'] y'] m']. simpl.
  destruct (decide ((i', y', m') = (i, y, mo))) as [He|He].
  - destruct (decide _) as [_|Hne].
    + simpl. f_equal; [|apply IH; intros k Hk; apply Hkeys; by right].
      assert (Hin : (i', n', y', m') ∈ (i', n', y', m') :: ks) by left.
      apply Hkeys in Hin. apply Hin in He. injection He as -> -> -> ->.
      by rewrite <- !(mapped_rows_group i n y mo l Hn), !map_map.
    + exfalso. apply Hne. by rewrite <- He.
  - destruct (decide _) as [Hs|_].
    + exfalso. apply He. exact Hs.
    + apply IH. intros k Hk. apply Hkeys. by right.
Qed.

Lemma groupby_mean_elem r rows :
  r ∈ groupby_mean rows ->
  exists r', r' ∈ rows /\ key_of r = key_of r'.
Proof.
  unfold groupby_mean. intros Hin.
  apply list_elem_of_In, in_map_iff in Hin as (k & Hr & Hk).
  apply list_elem_of_In, group_keys_elem in Hk.
  apply list_elem_of_In, in_map_iff in Hk as (r' & Hk & Hin).
  exists r'. split; [by apply list_elem_of_In|].
  rewrite Hk. destruct k as [[[i n] y] m]. by subst r.
Qed.

Lemma aggregate_elem_mapped all_vi_data r :
  r ∈ aggregate woreda_name_map all_vi_data ->
  woreda_name_map !! woreda_id (obs r) = Some (woreda_name r).
Proof.
  unfold aggregate, sort_values. rewrite sort_by_perm. intros Hin.
  apply groupby_mean_elem in Hin as (r' & Hin & Hk).
  apply mapped_rows_elem in Hin as [Hn _].
  unfold key_of in Hk. injection Hk as -> -> _ _. exact Hn.
Qed.

(** The grouping of l.138 taken alone, on rows that are given to it:
    whenever the concatenated input holds rows for a key (unit, year, month)
    of a known unit, however many, [aggregate] returns exactly one row with
    that key, and each of its two variables is the mean of the values of
    those rows (of the non-missing ones, as pandas skips NaN): when every
    duplicate carries a value, that is their sum divided by their number,
    in exact arithmetic. *)
Lemma aggregate_duplicates_averaged all_vi_data i y mo :
  let dups :=
    filter (fun o => obs_key o = (i, y, mo)) (concat_frames all_vi_data) in
  is_Some (woreda_name_map !! i) ->
  dups <> [] ->
  exists r,
    filter (fun r => sort_key r = (i, y, mo))
           (aggregate woreda_name_map all_vi_data) = [r]
    /\ avg_ndvi (obs r) = series_mean (map avg_ndvi dups)
    /\ avg_savi (obs r) = series_mean (map avg_savi dups)
    /\ (forall vs, map avg_ndvi dups = map Some vs ->
          avg_ndvi (obs r) = Some (arith_mean vs))
    /\ (forall vs, map avg_savi dups = map Some vs ->
          avg_savi (obs r) = Some (arith_mean vs)).
Proof.
  intros dups [n Hn] Hne.
  exists {| obs := {| woreda_id := i; year := y; month := mo;
                      avg_ndvi := series_mean (map avg_ndvi dups);
                      avg_savi := series_mean (map avg_savi dups) |};
            woreda_name := n |}.
  split; [|split; [reflexivity|split; [reflexivity|]]].
  - apply Permutation_singleton_r.
    unfold aggregate, sort_values. rewrite sort_by_perm.
    fold (mapped_rows (concat_frames all_vi_data)).
    rewrite (groupby_mean_filter i n y mo _ Hn).
    rewrite filter_eq_NoDup; [reflexivity|apply group_keys_NoDup|].
    apply group_keys_elem.
    destruct dups as [|o dups'] eqn:Hd; [done|].
    assert (Ho : o ∈ filter (fun o => obs_key o = (i, y, mo))
                   (concat_frames all_vi_data)).
    { fold dups. rewrite Hd. left. }
    apply list_elem_of_filter in Ho as [Hk Ho].
    injection Hk as Hi Hy Hm.
    apply list_elem_of_In, in_map_iff.
    exists {| obs := o; woreda_name := n |}. split.
    + unfold key_of. simpl. by rewrite Hi, Hy, Hm.
    + apply list_elem_of_In, mapped_rows_intro; [done|by rewrite Hi].
  - simpl. split; intros vs Hvs; fold dups; rewrite Hvs;
      apply series_mean_present; intros ->; destruct dups; done.
Qed.

(** C9.  An observation whose [woreda_id] is no key of the boundary dict
    never reaches the grouping, no row of the aggregated table carries its
    id, and the table is the one computed from the input without the
    unmappable rows, so nothing derived from the table can depend on
    them. *)
Theorem unmappable_unit_excluded all_vi_data o :
  o ∈ concat_frames all_vi_data ->
  woreda_name_map !! woreda_id o = None ->
  (forall r, r ∈ mapped_rows (concat_frames all_vi_data) ->
     woreda_id (obs r) <> woreda_id o)
  /\ (forall r, r ∈ aggregate woreda_name_map all_vi_data ->
        woreda_id (obs r) <> woreda_id o)
  /\ aggregate woreda_name_map all_vi_data =
     aggregate woreda_name_map
       [filter (fun o' => is_Some (woreda_name_map !! woreda_id o'))
               (concat_frames all_vi_data)].
Proof.
  intros _ Hnone. split; [|split].
  - intros r Hr Heq. apply mapped_rows_elem in Hr as [Hn _].
    rewrite Heq, Hnone in Hn. discriminate.
  - intros r Hr Heq. apply aggregate_elem_mapped in Hr.
    rewrite Heq, Hnone in Hr. discriminate.
  - pose proof (mapped_rows_filter (concat_frames all_vi_data)) as Hf.
    unfold aggregate, Aggregator.mapped_rows in *.
    unfold concat_frames at 2. simpl. rewrite app_nil_r.
    by rewrite Hf.
Qed.

End AggregatorFacts.

(** ** Notebook 05: what the cell does with its input *)

(** C3.  The cell never reaches its aggregation.  No statement binds [gpd],
    so the first statement of the [try:] (l.58) raises [NameError] before
    [gdf_woredas] is assigned; the last handler (l.69-70) prints the error
    and goes on; [gdf_woredas] is still the [None] of l.56, so the guards
    of l.76 and l.87 take their [else] branches.  Whatever the boundary
    file, the bucket and the export files hold, the cell prints three
    lines and ends, and no aggregated table is written: the duplicate rows
    of a (unit, year, month) are never averaged into one. *)
Theorem notebook05_writes_no_table {GeoDataFrame : Type}
    (read_file : Notebook05.exception + GeoDataFrame)
    (gdf_columns : GeoDataFrame -> list string)
    (astype_str_ids : GeoDataFrame -> Notebook05.exception + GeoDataFrame)
    (to_dict : GeoDataFrame -> Notebook05.exception + gmap string string)
    (download_gcs_files : option Notebook05.exception)
    (file_loop : list (list Aggregator.vi_obs) * nat * nat) :
  Notebook05.load read_file gdf_columns astype_str_ids to_dict
  = {| Notebook05.gdf_woredas := None;
       Notebook05.woreda_name_map := None;
       Notebook05.printed :=
         [Notebook05.UnexpectedLoadError (Notebook05.NameError "gpd")] |}
  /\ Notebook05.run read_file gdf_columns astype_str_ids to_dict
       download_gcs_files file_loop
     = Notebook05.Completed
         [Notebook05.UnexpectedLoadError (Notebook05.NameError "gpd");
          Notebook05.SkippingDownload;
          Notebook05.SkippingProcessing]
         None.
Proof. split; reflexivity. Qed.

(** ** Results and data frames *)

Lemma bind_Ok {A B : Type} (m : result A) (f : A -> result B) (b : B) :
  m ≫= f = Ok b <-> exists a, m = Ok a /\ f a = Ok b.
Proof.
  destruct m as [a|e]; simpl; split.
  - intros Hf. by exists a.
  - by intros (a' & [= ->] & Hf).
  - discriminate.
  - by intros (a' & [=] & _).
Qed.

Lemma bind_Raise {A B : Type} (m : result A) (f : A -> result B) (e : exn) :
  m = Raise e -> m ≫= f = Raise e.
Proof. by intros ->. Qed.

Ltac inv_bind H :=
  repeat match type of H with
  | _ ≫= _ = Ok _ =>
      let a := fresh "a" in
      let Ha := fresh "Ha" in
      apply bind_Ok in H as (a & Ha & H)
  end.

Section FrameFacts.
Import Frame.

Lemma columns_take_rows mask df : columns (take_rows mask df) = columns df.
Proof. unfold columns, take_rows. rewrite map_map. by apply map_ext. Qed.

Lemma getitem_elem df c : c ∈ columns df -> exists s, getitem df c = Ok s.
Proof.
  induction df as [|[n s] df IH]; simpl; intros Hin.
  - by apply elem_of_nil in Hin.
  - destruct (String.eqb_spec n c) as [->|Hne]; [by eexists|].
    apply IH. apply elem_of_cons in Hin as [->|Hin]; done.
Qed.

Lemma getitem_Ok_elem df c s : getitem df c = Ok s -> c ∈ columns df.
Proof.
  induction df as [|[n s0] df IH]; simpl; [discriminate|].
  destruct (String.eqb_spec n c) as [->|Hne]; intros Hg.
  - left.
  - right. by apply IH.
Qed.

Lemma getitem_Raise df c e :
  getitem df c = Raise e -> e = KeyError c /\ c ∉ columns df.
Proof.
  induction df as [|[n s0] df IH]; simpl.
  - intros [= <-]. split; [done|]. apply not_elem_of_nil.
  - destruct (String.eqb_spec n c) as [->|Hne]; [discriminate|].
    intros Hg. destruct (IH Hg) as [-> Hnin]. split; [done|].
    intros [->|Hin]%elem_of_cons; done.
Qed.

Lemma columns_setitem df c s :
  c ∈ columns df -> columns (setitem df c s) = columns df.
Proof.
  induction df as [|[n s0] df IH]; simpl; intros Hin.
  - by apply elem_of_nil in Hin.
  - destruct (String.eqb_spec n c) as [->|Hne]; [done|]. simpl. f_equal.
    apply IH. apply elem_of_cons in Hin as [->|Hin]; done.
Qed.

Lemma getitem_setitem_eq df c s : getitem (setitem df c s) c = Ok s.
Proof.
  induction df as [|[n s0] df IH]; simpl.
  - by rewrite String.eqb_refl.
  - destruct (String.eqb_spec n c) as [->|Hne]; simpl.
    + by rewrite String.eqb_refl.
    + by destruct (String.eqb_spec n c).
Qed.

Lemma getitem_setitem_ne df c c' s :
  c <> c' -> getitem (setitem df c s) c' = getitem df c'.
Proof.
  intros Hne. induction df as [|[n s0] df IH]; simpl.
  - by destruct (String.eqb_spec c c').
  - destruct (String.eqb_spec n c) as [->|Hnc]; simpl.
    + by destruct (String.eqb_spec c c').
    + by destruct (String.eqb_spec n c').
Qed.

Lemma columns_setitem_elem df c s c' :
  c' ∈ columns df -> c' ∈ columns (setitem df c s).
Proof.
  intros Hin. destruct (getitem_elem _ _ Hin) as [s' Hs'].
  destruct (decide (c = c')) as [->|Hne].
  - eapply getitem_Ok_elem, getitem_setitem_eq.
  - eapply getitem_Ok_elem. rewrite getitem_setitem_ne; done.
Qed.

(** A selection that succeeds has the names of the list, in its order. *)
Lemma select_columns df cols df' :
  select df cols = Ok df' -> columns df' = cols.
Proof.
  unfold select. revert df'.
  induction cols as [|c cols IH]; simpl; intros df' Hs.
  - by injection Hs as <-.
  - destruct (getitem df c) as [s|e]; simpl in Hs; [|discriminate].
    destruct (mapM _ cols) as [k|e]; simpl in Hs; [|discriminate].
    injection Hs as <-. simpl. f_equal. by apply IH.
Qed.

Lemma select_elem df cols :
  (forall c, c ∈ cols -> c ∈ columns df) -> exists df', select df cols = Ok df'.
Proof.
  unfold select. induction cols as [|c cols IH]; simpl; intros Hsub.
  - by eexists.
  - destruct (getitem_elem df c) as [s ->]; [apply Hsub; left|]. simpl.
    destruct IH as [k ->]; [intros c' Hc'; apply Hsub; by right|].
    by eexists.
Qed.

Lemma select_missing df cols c :
  c ∈ cols -> c ∉ columns df -> exists c', select df cols = Raise (KeyError c').
Proof.
  unfold select. induction cols as [|c0 cols IH]; simpl; intros Hin Hnin.
  - by apply elem_of_nil in Hin.
  - destruct (getitem df c0) as [s|e] eqn:Hg; simpl.
    + apply elem_of_cons in Hin as [->|Hin].
      * exfalso. by apply Hnin, (getitem_Ok_elem _ _ s).
      * destruct (IH Hin Hnin) as [c' ->]. by exists c'.
    + apply getitem_Raise in Hg as [-> _]. by exists c0.
Qed.

Lemma select_getitem df cols df' c :
  select df cols = Ok df' -> c ∈ cols -> getitem df' c = getitem df c.
Proof.
  unfold select. revert df'.
  induction cols as [|c0 cols IH]; simpl; intros df' Hs Hin.
  - by apply elem_of_nil in Hin.
  - destruct (getitem df c0) as [s|e] eqn:Hg; simpl in Hs; [|discriminate].
    destruct (mapM _ cols) as [k|e]; simpl in Hs; [|discriminate].
    injection Hs as <-. simpl.
    destruct (String.eqb_spec c0 c) as [->|Hne]; [done|].
    apply IH; [done|]. apply elem_of_cons in Hin as [->|Hin]; done.
Qed.

Lemma frame_of_ndarray_columns arr cols n df :
  frame_of_ndarray arr cols n = Ok df -> columns df = cols.
Proof.
  unfold frame_of_ndarray.
  destruct (_ && _) eqn:Hb; [|discriminate]. intros [= <-].
  apply andb_true_iff in Hb as [Hb _]. apply Nat.eqb_eq in Hb.
  unfold columns. apply fst_zip. rewrite length_map. lia.
Qed.

Lemma has_missing_getitem df c s :
  getitem df c = Ok s -> isnull_any s = true -> has_missing df = true.
Proof.
  induction df as [|[n s0] df IH]; simpl; [discriminate|].
  destruct (String.eqb_spec n c) as [->|Hne]; intros Hg Hs.
  - injection Hg as ->. by rewrite Hs.
  - rewrite (IH Hg Hs). apply orb_true_r.
Qed.

Lemma fillna_Num q s : isnull_any (fillna (Num q) s) = false.
Proof.
  unfold isnull_any, fillna. induction s as [|c s IH]; [done|].
  simpl. rewrite IH. by destruct c.
Qed.

(** The mean of a column that holds a number is a number. *)
Lemma mean_Num s m q : mean s = Ok m -> Num q ∈ s -> exists q', m = Num q'.
Proof.
  unfold mean. destruct (existsb is_str s); [discriminate|].
  intros [= <-] Hin. unfold series_mean.
  assert (Hp : present (nums s) <> []).
  { induction s as [|c s IH]; [by apply elem_of_nil in Hin|].
    apply elem_of_cons in Hin as [<-|Hin]; [done|].
    destruct c; simpl; try done; by apply IH. }
  destruct (present (nums s)); [done|]. by eexists.
Qed.

End FrameFacts.

(** ** Data preparation: the imputation loop *)

Section ImputeFacts.
Import Frame Preparation.

Lemma impute_col_Ok st c st' :
  impute_col st c = Ok st' ->
  exists xc,
    getitem (X st) c = Ok xc /\
    if isnull_any xc
    then exists m yc, mean xc = Ok m /\ getitem (X_2025 st) c = Ok yc
           /\ st' = {| X := setitem (X st) c (fillna m xc);
                       X_2025 := setitem (X_2025 st) c (fillna m yc);
                       printed := printed st ++ [Imputed c m] |}
    else st' = st.
Proof.
  unfold impute_col. intros Hs.
  destruct (getitem (X st) c) as [xc|e] eqn:Hx; simpl in Hs; [|discriminate].
  exists xc. split; [done|].
  destruct (isnull_any xc) eqn:Hnull.
  - destruct (mean xc) as [m|e]; simpl in Hs; [|discriminate].
    destruct (getitem (X_2025 st) c) as [yc|e]; simpl in Hs; [|discriminate].
    injection Hs as <-. eauto.
  - by injection Hs as <-.
Qed.

Lemma impute_col_self st c st' :
  impute_col st c = Ok st' -> col_imputed st st' c.
Proof.
  intros Hs xc yc Hx Hy.
  apply impute_col_Ok in Hs as (xc' & Hx' & Hs).
  rewrite Hx in Hx'. injection Hx' as <-.
  destruct (isnull_any xc).
  - destruct Hs as (m & yc' & Hm & Hy' & ->).
    rewrite Hy in Hy'. injection Hy' as <-.
    exists m. simpl. by rewrite !getitem_setitem_eq.
  - by subst st'.
Qed.

Lemma impute_col_other st c st' c' :
  impute_col st c = Ok st' -> c <> c' ->
  getitem (X st') c' = getitem (X st) c' /\
  getitem (X_2025 st') c' = getitem (X_2025 st) c'.
Proof.
  intros Hs Hne. apply impute_col_Ok in Hs as (xc & Hx & Hs).
  destruct (isnull_any xc).
  - destruct Hs as (m & yc & _ & _ & ->). simpl.
    by rewrite !getitem_setitem_ne.
  - by subst st'.
Qed.

Lemma impute_col_columns st c st' :
  impute_col st c = Ok st' ->
  columns (X st') = columns (X st) /\
  columns (X_2025 st') = columns (X_2025 st).
Proof.
  intros Hs. apply impute_col_Ok in Hs as (xc & Hx & Hs).
  destruct (isnull_any xc).
  - destruct Hs as (m & yc & _ & Hy & ->). simpl.
    split; apply columns_setitem; by eapply getitem_Ok_elem.
  - by subst st'.
Qed.


(** Each feature column of a table without repeated names is visited once:
    the loop as a whole does to it what one pass of its body does. *)
Lemma impute_spec cols st st' :
  NoDup cols ->
  impute cols st = Ok st' ->
  (forall c, c ∈ cols -> col_imputed st st' c) /\
  (forall c, c ∉ cols ->
     getitem (X st') c = getitem (X st) c /\
     getitem (X_2025 st') c = getitem (X_2025 st) c).
Proof.
  unfold impute. intros Hnd. revert st.
  induction Hnd as [|c0 cols Hnin Hnd IH]; simpl; intros st Hs.
  - injection Hs as <-. split; [|done].
    intros c Hc. by apply elem_of_nil in Hc.
  - inv_bind Hs. destruct (IH _ Hs) as [IHin IHout]. split.
    + intros c [->|Hc]%elem_of_cons.
      * destruct (IHout _ Hnin) as [Hx Hy].
        pose proof (impute_col_self _ _ _ Ha) as Hself.
        intros xc yc Hgx Hgy. specialize (Hself xc yc Hgx Hgy).
        rewrite Hx, Hy. exact Hself.
      * assert (Hne : c0 <> c) by (intros ->; done).
        destruct (impute_col_other _ _ _ c Ha Hne) as [Hx Hy].
        intros xc yc Hgx Hgy. apply (IHin c Hc); by rewrite ?Hx, ?Hy.
    + intros c Hc. apply not_elem_of_cons in Hc as [Hne Hc].
      destruct (IHout _ Hc) as [-> ->].
      apply (impute_col_other _ _ _ c Ha). done.
Qed.

Lemma dropna_subset_columns df c tr :
  dropna_subset df c = Ok tr -> columns tr = columns df.
Proof.
  unfold dropna_subset. intros Hd. inv_bind Hd. injection Hd as <-.
  apply columns_take_rows.
Qed.


Lemma feature_cols_elem tr c : c ∈ feature_cols_of tr -> c ∈ columns tr.
Proof. unfold feature_cols_of. by intros [_ ?]%list_elem_of_filter. Qed.

Lemma split_Ok df sp st0 :
  split df = Ok (sp, st0) ->
  df_train_of df = Ok (df_train sp)
  /\ df_2025_of df = Ok (df_2025 sp)
  /\ feature_cols sp = feature_cols_of (df_train sp)
  /\ select (df_train sp) (feature_cols sp) = Ok (X st0)
  /\ getitem (df_train sp) target_col = Ok (y sp)
  /\ select (df_2025 sp) (feature_cols sp) = Ok (X_2025 st0)
  /\ printed st0 = [].
Proof.
  unfold split. intros Hs. inv_bind Hs. injection Hs as <- <-. simpl.
  repeat split; done.
Qed.

Lemma means_of_app evs evs' : means_of (evs ++ evs') = means_of evs ++ means_of evs'.
Proof. unfold means_of. apply omap_app. Qed.

Lemma check_missing_view st :
  X (check_missing st) = X st
  /\ X_2025 (check_missing st) = X_2025 st
  /\ means_of (printed (check_missing st)) = means_of (printed st).
Proof.
  unfold check_missing. destruct (_ || _); simpl; [|done].
  by rewrite means_of_app, app_nil_r.
Qed.

Lemma impute_col_view st1 st2 c :
  training_view st1 = training_view st2 ->
  c ∈ columns (X_2025 st1) -> c ∈ columns (X_2025 st2) ->
  training_view <$> impute_col st1 c = training_view <$> impute_col st2 c.
Proof.
  unfold training_view. intros [= HX Hm] H1 H2. unfold impute_col.
  rewrite <- HX.
  destruct (getitem (X st1) c) as [xc|e]; simpl; [|done].
  destruct (isnull_any xc); simpl.
  - destruct (mean xc) as [m|e]; simpl; [|done].
    destruct (getitem_elem _ _ H1) as [y1 ->].
    destruct (getitem_elem _ _ H2) as [y2 ->]. simpl.
    by rewrite !means_of_app, Hm.
  - by rewrite HX, Hm.
Qed.

Lemma impute_view cols st1 st2 :
  training_view st1 = training_view st2 ->
  (forall c, c ∈ cols -> c ∈ columns (X_2025 st1)) ->
  (forall c, c ∈ cols -> c ∈ columns (X_2025 st2)) ->
  training_view <$> impute cols st1 = training_view <$> impute cols st2.
Proof.
  unfold impute. revert st1 st2.
  induction cols as [|c cols IH]; simpl; intros st1 st2 Hv H1 H2.
  - by rewrite Hv.
  - assert (Hc : c ∈ c :: cols) by left.
    pose proof (impute_col_view st1 st2 c Hv (H1 c Hc) (H2 c Hc)) as Hstep.
    destruct (impute_col st1 c) as [s1|e1] eqn:E1,
             (impute_col st2 c) as [s2|e2] eqn:E2; simpl in *; try done.
    assert (Hv' : training_view s1 = training_view s2) by congruence.
    apply impute_col_columns in E1 as [_ E1], E2 as [_ E2].
    apply IH; [done| |]; intros c' Hc'.
    + rewrite E1. apply H1. by right.
    + rewrite E2. apply H2. by right.
Qed.

Lemma split_same_training m1 m2 :
  df_train_of m1 = df_train_of m2 ->
  match split m1, split m2 with
  | Ok p1, Ok p2 =>
      feature_cols (fst p1) = feature_cols (fst p2)
      /\ training_view (snd p1) = training_view (snd p2)
      /\ columns (X_2025 (snd p1)) = feature_cols (fst p1)
      /\ columns (X_2025 (snd p2)) = feature_cols (fst p2)
  | Raise e1, Raise e2 => e1 = e2
  | _, _ => False
  end.
Proof.
  intros Heq. unfold split.
  destruct (df_train_of m1) as [tr|e] eqn:Htr1,
           (df_train_of m2) as [tr2|e2] eqn:Htr2;
    try discriminate; injection Heq as <-; simpl; [|done].
  pose proof (dropna_subset_columns _ _ _ Htr1) as Hc1.
  pose proof (dropna_subset_columns _ _ _ Htr2) as Hc2.
  unfold df_2025_of.
  destruct (getitem m1 "year") as [y1|e1] eqn:Hy1,
           (getitem m2 "year") as [y2|e2] eqn:Hy2; simpl.
  - destruct (select tr (feature_cols_of tr)) as [x|e]; simpl; [|done].
    destruct (getitem tr target_col) as [yv|e]; simpl; [|done].
    destruct (select_elem (take_rows (eq_num 2025 y1) m1) (feature_cols_of tr))
      as [x1 Hx1].
    { intros c Hc. rewrite columns_take_rows, <- Hc1.
      by apply feature_cols_elem. }
    destruct (select_elem (take_rows (eq_num 2025 y2) m2) (feature_cols_of tr))
      as [x2 Hx2].
    { intros c Hc. rewrite columns_take_rows, <- Hc2.
      by apply feature_cols_elem. }
    rewrite Hx1, Hx2. simpl.
    apply select_columns in Hx1, Hx2. done.
  - exfalso. apply getitem_Raise in Hy2 as [_ Hn]. apply Hn.
    rewrite <- Hc2, Hc1. by eapply getitem_Ok_elem.
  - exfalso. apply getitem_Raise in Hy1 as [_ Hn]. apply Hn.
    rewrite <- Hc1, Hc2. by eapply getitem_Ok_elem.
  - apply getitem_Raise in Hy1 as [-> _], Hy2 as [-> _]. done.
Qed.

End ImputeFacts.

(** ** No leakage *)

Section Leakage.
Import Frame Preparation.
Context `{Library}.

Lemma statistics_unfold df_master :
  statistics df_master =
  sp ← split df_master;
  v ← training_view <$> impute (feature_cols (fst sp)) (snd sp);
  sc ← scaler_fit (fst v);
  xs ← scaler_transform sc (fst v);
  mret (snd v, sc, fst v, xs).
Proof.
  unfold statistics, fit_stage.
  destruct (split df_master) as [sp|e]; simpl; [|done].
  destruct (impute _ _) as [st|e]; simpl; [|done].
  destruct (check_missing_view st) as (HX & _ & Hm).
  rewrite HX.
  destruct (scaler_fit (X st)) as [sc|e]; simpl; [|done].
  destruct (scaler_transform sc (X st)) as [xs|e]; simpl; [|done].
  unfold imputation_means. simpl.
  change (omap _ (printed (check_missing st)))
    with (means_of (printed (check_missing st))).
  by rewrite HX, Hm.
Qed.

(** C1.  Two master tables with the same training population (the rows with
    a yield) give the same imputation means, the same fitted scaler and the
    same imputed and scaled training features, whatever their other rows,
    the 2025 rows among them, contain; a run that raises on one raises the
    same exception on the other. *)
Theorem no_leakage (m1 m2 : DataFrame) :
  df_train_of m1 = df_train_of m2 ->
  statistics m1 = statistics m2.
Proof.
  intros Heq. rewrite !statistics_unfold.
  pose proof (split_same_training m1 m2 Heq) as Hs.
  destruct (split m1) as [p1|e1], (split m2) as [p2|e2]; simpl; try done.
  - destruct Hs as (Hcols & Hv & Hc1 & Hc2).
    rewrite <- Hcols.
    rewrite (impute_view _ (snd p1) (snd p2) Hv); [done| |].
    + intros c Hc. by rewrite Hc1.
    + intros c Hc. by rewrite Hc2, <- Hcols.
  - by rewrite Hs.
Qed.

End Leakage.

(** ** The imputation postcondition *)

Section PreparationFacts.
Import Frame Preparation.
Context `{Library}.

Lemma split_feature_cols_NoDup df sp st0 :
  NoDup (columns df) -> split df = Ok (sp, st0) -> NoDup (feature_cols sp).
Proof.
  intros Hnd Hs. apply split_Ok in Hs as (Htr & _ & -> & _).
  unfold feature_cols_of. apply NoDup_filter.
  by rewrite (dropna_subset_columns _ _ _ Htr).
Qed.

Lemma check_missing_printed st :
  printed (check_missing st) =
  if has_missing (X st) || has_missing (X_2025 st)
  then printed st ++ [MissingValuesWarning] else printed st.
Proof. unfold check_missing. by destruct (_ || _). Qed.

(** After a successful split and imputation, the rest of section 3 is the
    scaling of the frames as the loop left them: the check in between adds
    at most a printed warning. *)
Lemma prepare_after_impute df_master sp st0 st :
  split df_master = Ok (sp, st0) ->
  impute (feature_cols sp) st0 = Ok st ->
  prepare df_master =
  sc ← scaler_fit (X st);
  xs ← scaler_transform sc (X st);
  transform_stage {| data := sp; imputed := check_missing st;
                     scaler := sc; X_scaled := xs |}.
Proof.
  intros Hs Hi. unfold prepare, fit_stage. rewrite Hs. simpl. rewrite Hi. simpl.
  destruct (check_missing_view st) as (-> & _ & _).
  destruct (scaler_fit (X st)) as [sc|e]; simpl; [|done].
  by destruct (scaler_transform sc (X st)).
Qed.

(** And the rest of the notebook is scaling, training and prediction. *)
Lemma notebook_after_impute catalog df_master sp st0 st :
  split df_master = Ok (sp, st0) ->
  impute (feature_cols sp) st0 = Ok st ->
  Predictor.notebook catalog (Some df_master) =
  sc ← scaler_fit (X st);
  xs ← scaler_transform sc (X st);
  p ← transform_stage {| data := sp; imputed := check_missing st;
                         scaler := sc; X_scaled := xs |};
  r ← Predictor.train_and_predict catalog p;
  mret (Some r).
Proof.
  intros Hs Hi. unfold Predictor.notebook.
  rewrite (prepare_after_impute _ _ _ _ Hs Hi).
  destruct (scaler_fit (X st)) as [sc|e]; simpl; [|done].
  by destruct (scaler_transform sc (X st)).
Qed.

(** C10.  On a master table with distinct column names, the loop fills a
    feature column, in both frames and with the training mean, exactly when
    the training column has a missing value; otherwise it leaves the column
    as it is in both frames, so a value missing only in the 2025 rows stays
    missing.  When missing values remain the check prints its warning, and
    the notebook goes on to fit the scaler, transform the frames that still
    hold them, train and predict. *)
Theorem imputation_guarded_by_training_column df_master sp st0 st :
  NoDup (columns df_master) ->
  split df_master = Ok (sp, st0) ->
  impute (feature_cols sp) st0 = Ok st ->
  (forall c, c ∈ feature_cols sp ->
     exists xc yc, getitem (X st0) c = Ok xc /\ getitem (X_2025 st0) c = Ok yc
       /\ col_imputed st0 st c
       /\ (isnull_any xc = false -> isnull_any yc = true ->
             has_missing (X_2025 st) = true))
  /\ (has_missing (X st) || has_missing (X_2025 st) = true ->
        printed (check_missing st) = printed st ++ [MissingValuesWarning])
  /\ X (check_missing st) = X st
  /\ X_2025 (check_missing st) = X_2025 st
  /\ (forall catalog,
        Predictor.notebook catalog (Some df_master) =
        (sc ← scaler_fit (X st);
         xs ← scaler_transform sc (X st);
         p ← transform_stage {| data := sp; imputed := check_missing st;
                                scaler := sc; X_scaled := xs |};
         r ← Predictor.train_and_predict catalog p;
         mret (Some r))).
Proof.
  intros Hnd Hs Hi.
  pose proof (split_feature_cols_NoDup _ _ _ Hnd Hs) as Hndc.
  destruct (impute_spec _ _ _ Hndc Hi) as [Hin _].
  pose proof (split_Ok _ _ _ Hs) as (_ & _ & _ & Hx & _ & Hy & _).
  split; [|split; [|split; [|split]]].
  - intros c Hc.
    destruct (getitem_elem (X st0) c) as [xc Hxc].
    { by rewrite (select_columns _ _ _ Hx). }
    destruct (getitem_elem (X_2025 st0) c) as [yc Hyc].
    { by rewrite (select_columns _ _ _ Hy). }
    exists xc, yc. repeat split; [done|done|by apply Hin|].
    intros Hnx Hny. specialize (Hin c Hc xc yc Hxc Hyc).
    rewrite Hnx in Hin. destruct Hin as [_ Hg].
    by eapply has_missing_getitem.
  - intros Hm. by rewrite check_missing_printed, Hm.
  - apply check_missing_view.
  - apply check_missing_view.
  - intros catalog. exact (notebook_after_impute _ _ _ _ _ Hs Hi).
Qed.

End PreparationFacts.

(** ** Scores *)

Lemma Qlt_negb_le x y : negb (Qle_bool y x) = true <-> (x < y)%Q.
Proof.
  rewrite negb_true_iff. split.
  - intros Hb. apply Qnot_le_lt. intros Hle.
    apply Qle_bool_iff in Hle. congruence.
  - intros Hlt. destruct (Qle_bool y x) eqn:Hb; [|done].
    apply Qle_bool_iff in Hb. by apply Qlt_not_le in Hlt.
Qed.

Lemma slt_irrefl a : slt a a = false.
Proof.
  destruct a; simpl; try done.
  apply negb_false_iff, Qle_bool_iff, Qle_refl.
Qed.

Lemma slt_below_inf a b : slt a b = true -> slt a SPosInf = true.
Proof. by destruct a, b. Qed.

Lemma slt_trans a b c : slt a b = true -> slt b c = true -> slt a c = true.
Proof.
  destruct a, b, c; simpl; try done.
  rewrite !Qlt_negb_le. apply Qlt_trans.
Qed.

(** Among scores below [+inf] the order is total: what is not below [b] is
    above everything below [b]. *)
Lemma slt_not_below a b c :
  slt a b = true -> slt c b = false -> slt c SPosInf = true -> slt a c = true.
Proof.
  destruct a, b, c; simpl; try done.
  rewrite negb_false_iff, Qle_bool_iff, !Qlt_negb_le.
  intros Hab Hbc _. by eapply Qlt_le_trans.
Qed.

(** ** The model selection loop *)

Lemma foldM_app {St A : Type} (body : St -> A -> result St) s l1 l2 :
  foldM body s (l1 ++ l2) = s' ← foldM body s l1; foldM body s' l2.
Proof.
  revert s. induction l1 as [|x l1 IH]; simpl; intros s; [done|].
  destruct (body s x) as [s1|e]; simpl; [apply IH|done].
Qed.

Section EngineFacts.
Import Frame Engine.
Context `{Library}.
Variables (Xs : DataFrame) (yv : Series).

Lemma train_variant_Ok st name m st' :
  train_variant Xs yv st (name, m) = Ok st' ->
  exists s tr,
    cv_rmse Xs yv m = Ok s
    /\ estimator_fit m Xs yv = Ok tr
    /\ best_rmse st' = (if slt s (best_rmse st) then s else best_rmse st)
    /\ best_model st' =
         (if slt s (best_rmse st) then Some (name, tr) else best_model st).
Proof.
  unfold train_variant, cv_rmse, avg_rmse_of. simpl. intros Ht.
  destruct (cross_val_score m Xs yv neg_mean_squared_error) as [mse|e];
    simpl in *; [|discriminate].
  destruct (cross_val_score m Xs yv r2) as [r2s|e]; simpl in *; [|discriminate].
  destruct (cross_val_score m Xs yv neg_mean_absolute_error) as [mae|e];
    simpl in *; [|discriminate].
  destruct (estimator_fit m Xs yv) as [tr|e]; simpl in *; [|discriminate].
  eexists _, tr. split; [reflexivity|]. split; [reflexivity|].
  destruct (slt _ _); injection Ht as <-; done.
Qed.

Lemma train_variant_result st name m :
  match variant_result Xs yv m with
  | Ok _ => exists st', train_variant Xs yv st (name, m) = Ok st'
  | Raise e => train_variant Xs yv st (name, m) = Raise e
  end.
Proof.
  unfold train_variant, variant_result. simpl.
  destruct (cross_val_score m Xs yv neg_mean_squared_error) as [mse|e];
    simpl; [|done].
  destruct (cross_val_score m Xs yv r2) as [r2s|e]; simpl; [|done].
  destruct (cross_val_score m Xs yv neg_mean_absolute_error) as [mae|e];
    simpl; [|done].
  destruct (estimator_fit m Xs yv) as [tr|e]; simpl; [|done].
  destruct (slt _ _); by eexists.
Qed.

Lemma loop_invariant_initial : loop_invariant Xs yv [] initial.
Proof. split; [done|]. intros j e s Hj. by rewrite lookup_nil in Hj. Qed.

Lemma loop_invariant_step pre st name m st' :
  loop_invariant Xs yv pre st ->
  train_variant Xs yv st (name, m) = Ok st' ->
  loop_invariant Xs yv (pre ++ [(name, m)]) st'.
Proof.
  intros Hinv Ht.
  apply train_variant_Ok in Ht as (s & tr & Hs & Hfit & Hbr & Hbm).
  assert (Hlook : forall j e, (pre ++ [(name, m)]) !! j = Some e ->
            pre !! j = Some e \/ (j = length pre /\ e = (name, m))).
  { intros j e Hj. apply lookup_app_Some in Hj as [Hj|[Hlen Hj]]; [by left|].
    right. apply list_lookup_singleton_Some in Hj as [Hz ->].
    split; [lia|done]. }
  unfold loop_invariant. rewrite Hbm, Hbr.
  destruct (slt s (best_rmse st)) eqn:Hlt.
  - (* the new variant takes the lead *)
    exists (length pre), m. simpl.
    split; [by rewrite lookup_app_r, Nat.sub_diag by lia|].
    split; [done|]. split; [done|].
    split; [by eapply slt_below_inf|]. split.
    + intros j e s' Hj Hs'. destruct (Hlook _ _ Hj) as [Hpre|[_ ->]].
      * unfold loop_invariant in Hinv.
        destruct (best_model st) as [best|].
        -- destruct Hinv as (i & m0 & _ & _ & _ & _ & Hmin & _).
           destruct (slt s' s) eqn:Hs's; [|done].
           rewrite <- (Hmin _ _ _ Hpre Hs'). symmetry. by eapply slt_trans.
        -- destruct Hinv as [_ Hnone].
           destruct (slt s' s) eqn:Hs's; [|done].
           rewrite <- (Hnone _ _ _ Hpre Hs'). symmetry. by eapply slt_below_inf.
      * simpl in Hs'. rewrite Hs in Hs'. injection Hs' as <-. apply slt_irrefl.
    + intros j e s' Hji Hj Hs' Hfin. destruct (Hlook _ _ Hj) as [Hpre|[-> _]]; [|lia].
      unfold loop_invariant in Hinv.
      destruct (best_model st) as [best|].
      * destruct Hinv as (i & m0 & _ & _ & _ & _ & Hmin & _).
        eapply slt_not_below; [exact Hlt| |exact Hfin]. by eapply Hmin.
      * destruct Hinv as [_ Hnone]. rewrite (Hnone _ _ _ Hpre Hs') in Hfin. done.
  - (* the lead is kept *)
    unfold loop_invariant in Hinv.
    destruct (best_model st) as [best|].
    + destruct Hinv as (i & m0 & Hi & Hfit0 & Hcv0 & Hfin & Hmin & Hfirst).
      exists i, m0. split; [by apply lookup_app_l_Some|].
      split; [done|]. split; [done|]. split; [done|]. split.
      * intros j e s' Hj Hs'. destruct (Hlook _ _ Hj) as [Hpre|[_ ->]].
        -- by eapply Hmin.
        -- simpl in Hs'. rewrite Hs in Hs'. by injection Hs' as <-.
      * intros j e s' Hji Hj Hs' Hf. destruct (Hlook _ _ Hj) as [Hpre|[-> _]].
        -- by eapply Hfirst.
        -- apply lookup_lt_Some in Hi. lia.
    + destruct Hinv as [Hinf Hnone]. split; [done|].
      intros j e s' Hj Hs'. destruct (Hlook _ _ Hj) as [Hpre|[_ ->]].
      * by eapply Hnone.
      * simpl in Hs'. rewrite Hs in Hs'. injection Hs' as <-.
        by rewrite <- Hinf.
Qed.

Lemma training_loop_invariant catalog st :
  training_loop Xs yv catalog = Ok st -> loop_invariant Xs yv catalog st.
Proof.
  unfold training_loop. revert st.
  induction catalog as [|[name m] catalog IH] using rev_ind; intros st Hl.
  - injection Hl as <-. apply loop_invariant_initial.
  - rewrite foldM_app in Hl. inv_bind Hl. simpl in Hl.
    destruct (train_variant Xs yv a (name, m)) as [st1|e] eqn:Ht;
      simpl in Hl; [|discriminate].
    injection Hl as <-. eapply loop_invariant_step; [by apply IH|done].
Qed.

Lemma training_loop_total catalog :
  Forall (fun v => is_ok (variant_result Xs yv (snd v)) = true) catalog ->
  exists st, training_loop Xs yv catalog = Ok st.
Proof.
  unfold training_loop. generalize initial.
  induction catalog as [|[name m] catalog IH]; simpl; intros st0 Hall.
  - by eexists.
  - apply Forall_cons in Hall as [Hm Hall]. simpl in Hm.
    pose proof (train_variant_result st0 name m) as Hr.
    destruct (variant_result Xs yv m); [|done].
    destruct Hr as [st1 ->]. simpl. by apply IH.
Qed.

Lemma training_loop_raises pre name m post e :
  Forall (fun v => is_ok (variant_result Xs yv (snd v)) = true) pre ->
  variant_result Xs yv m = Raise e ->
  training_loop Xs yv (pre ++ (name, m) :: post) = Raise e.
Proof.
  intros Hpre Hm. unfold training_loop. rewrite foldM_app.
  destruct (training_loop_total pre Hpre) as [st Hst].
  unfold training_loop in Hst. rewrite Hst. simpl.
  pose proof (train_variant_result st name m) as Hr.
  rewrite Hm in Hr. by rewrite Hr.
Qed.

Lemma training_loop_winner_refit catalog st best :
  training_loop Xs yv catalog = Ok st ->
  best_model st = Some best ->
  exists m, (fst best, m) ∈ catalog /\ estimator_fit m Xs yv = Ok (snd best).
Proof.
  intros Hl Hb. apply training_loop_invariant in Hl.
  unfold loop_invariant in Hl. rewrite Hb in Hl.
  destruct Hl as (i & m & Hi & Hfit & _). exists m. split; [|done].
  by eapply list_elem_of_lookup_2.
Qed.

(** C2.  When every variant of the catalog trains without raising and at
    least one has a mean cross-validated RMSE below [+inf], the loop ends
    with a winner: a variant of the catalog whose mean RMSE no variant of
    the catalog is below, and strictly below the mean RMSE of every variant
    that stands before it in the order of the catalog.  So the lowest mean
    RMSE wins and, among equals, the earliest in the order of the dict. *)
Theorem lowest_rmse_selected catalog :
  Forall (fun v => is_ok (variant_result Xs yv (snd v)) = true) catalog ->
  (exists v s, v ∈ catalog /\ cv_rmse Xs yv (snd v) = Ok s
               /\ slt s SPosInf = true) ->
  exists st i name m tr,
    training_loop Xs yv catalog = Ok st
    /\ best_model st = Some (name, tr)
    /\ catalog !! i = Some (name, m)
    /\ cv_rmse Xs yv m = Ok (best_rmse st)
    /\ (forall j e s', catalog !! j = Some e ->
          cv_rmse Xs yv (snd e) = Ok s' -> slt s' (best_rmse st) = false)
    /\ (forall j e s', (j < i)%nat -> catalog !! j = Some e ->
          cv_rmse Xs yv (snd e) = Ok s' -> slt s' SPosInf = true ->
          slt (best_rmse st) s' = true).
Proof.
  intros Hall (v & s & Hv & Hs & Hfin).
  destruct (training_loop_total catalog Hall) as [st Hst].
  pose proof (training_loop_invariant catalog st Hst) as Hinv.
  unfold loop_invariant in Hinv.
  destruct (best_model st) as [[name tr]|] eqn:Hb.
  - destruct Hinv as (i & m & Hi & _ & Hcv & _ & Hmin & Hfirst).
    exists st, i, name, m, tr. by repeat split.
  - destruct Hinv as [_ Hnone].
    apply list_elem_of_lookup_1 in Hv as [j Hj].
    rewrite (Hnone _ _ _ Hj Hs) in Hfin. discriminate.
Qed.

End EngineFacts.

Section RunFacts.
Import Frame Preparation Engine Predictor.
Context `{Library}.

Lemma train_stage_Ok catalog p t :
  train_stage catalog p = Ok t ->
  exists st,
    training_loop (X_scaled_df p) (y (data (fit_of p))) catalog = Ok st
    /\ best_model st = Some (winner t)
    /\ saved_model t = snd (winner t)
    /\ saved_scaler t = scaler (fit_of p)
    /\ saved_feature_cols t = feature_cols (data (fit_of p)).
Proof.
  unfold train_stage. intros Ht. inv_bind Ht.
  destruct (best_model a) as [best|] eqn:Hb; [|discriminate].
  injection Ht as <-. exists a. by repeat split.
Qed.


(** C8.  The model that section 4 keeps as the winner, and pickles, is the
    catalog's estimator of that name fitted on the whole scaled training
    frame and the whole yield column: the result of the [model.fit] call
    that follows cross-validation, which itself hands back only scores. *)
Theorem winner_is_refit_on_training_population catalog p t :
  train_stage catalog p = Ok t ->
  exists m,
    (fst (winner t), m) ∈ catalog
    /\ estimator_fit m (X_scaled_df p) (y (data (fit_of p))) = Ok (snd (winner t))
    /\ saved_model t = snd (winner t).
Proof.
  intros Ht. apply train_stage_Ok in Ht as (st & Hl & Hb & Hs & _).
  destruct (training_loop_winner_refit _ _ _ _ _ Hl Hb) as (m & Hin & Hfit).
  exists m. by repeat split.
Qed.

(** C5, as the code has it.  The loop has no handler: when the variants
    before some variant of the catalog train without raising and that
    variant's cross-validation or refit raises, the loop raises that
    exception, and with it section 4 and the whole notebook; no later
    variant is scored, no winner is selected, nothing is saved or
    predicted. *)
Theorem variant_failure_aborts_run df_master p pre name m post e :
  prepare df_master = Ok p ->
  Forall (fun v =>
            is_ok (variant_result (X_scaled_df p) (y (data (fit_of p))) (snd v))
            = true) pre ->
  variant_result (X_scaled_df p) (y (data (fit_of p))) m = Raise e ->
  training_loop (X_scaled_df p) (y (data (fit_of p)))
    (pre ++ (name, m) :: post) = Raise e
  /\ train_stage (pre ++ (name, m) :: post) p = Raise e
  /\ notebook (pre ++ (name, m) :: post) (Some df_master) = Raise e.
Proof.
  intros Hp Hpre Hm.
  pose proof (training_loop_raises _ _ pre name m post e Hpre Hm) as Hl.
  split; [done|].
  assert (Ht : train_stage (pre ++ (name, m) :: post) p = Raise e).
  { unfold train_stage. by rewrite Hl. }
  split; [done|]. unfold notebook, train_and_predict. rewrite Hp. simpl.
  by rewrite Ht.
Qed.

End RunFacts.

(** ** The predictor *)

Section PredictorFacts.
Import Frame Predictor.
Context `{Library}.

Lemma clamp_float r : exists c, clamp (cell_of_float r) = Ok c /\ emitted_for r c.
Proof.
  destruct r as [x|]; simpl.
  - destruct (Qle_bool x 0) eqn:Hle; simpl.
    + apply Qle_bool_iff in Hle. exists (Num 0). split; [done|].
      exists 0%Q. split; [done|]. split; [apply Qle_refl|]. split; [done|].
      intros Hx. symmetry. by apply Qle_antisym.
    + exists (Num x). split; [done|].
      assert (Hpos : (0 < x)%Q).
      { apply Qlt_negb_le. by rewrite Hle. }
      exists x. split; [done|]. split; [by apply Qlt_le_weak|]. split.
      * intros Hneg. exfalso. eapply Qlt_irrefl, Qlt_trans; eassumption.
      * intros _. apply Qeq_refl.
  - exists (Num 0). split; [done|]. exists 0%Q. split; [done|].
    split; [apply Qle_refl|done].
Qed.

Lemma mapM_clamp raw :
  exists emitted,
    mapM clamp (map cell_of_float raw) = Ok emitted
    /\ Forall2 emitted_for raw emitted.
Proof.
  induction raw as [|r raw IH]; simpl.
  - exists []. split; [done|constructor].
  - destruct (clamp_float r) as (c & -> & Hc).
    destruct IH as (cs & -> & Hcs). simpl.
    exists (c :: cs). split; [done|by constructor].
Qed.

Lemma predict_stage_unfold best Xs df_2025 raw emitted :
  estimator_predict (snd best) Xs = Ok raw ->
  length raw = nrows df_2025 ->
  mapM clamp (map cell_of_float raw) = Ok emitted ->
  predict_stage best Xs df_2025 =
  out ← select (setitem (setitem df_2025 prediction_col (map cell_of_float raw))
                        prediction_col emitted) output_cols;
  mret (setitem (setitem df_2025 prediction_col (map cell_of_float raw))
                prediction_col emitted, out).
Proof.
  intros Hraw Hlen Hem. unfold predict_stage. rewrite Hraw. simpl.
  rewrite Hlen, Nat.eqb_refl. simpl.
  rewrite getitem_setitem_eq. simpl. by rewrite Hem.
Qed.

(** C7.  When the model returns one raw prediction per 2025 row and the
    frame has the three identifier columns, section 5 produces its table,
    and the prediction column of the table holds, row by row, a number that
    is never negative: [0] where the raw prediction is negative, the raw
    prediction where it is not (and [0] where the model returned NaN). *)
Theorem predictions_clamped best Xs df_2025 raw :
  estimator_predict (snd best) Xs = Ok raw ->
  length raw = nrows df_2025 ->
  (forall c, c ∈ ["woreda_id"; "woreda_name"; "year"]%string ->
             c ∈ columns df_2025) ->
  exists df out emitted,
    predict_stage best Xs df_2025 = Ok (df, out)
    /\ columns out = output_cols
    /\ getitem out prediction_col = Ok emitted
    /\ Forall2 emitted_for raw emitted.
Proof.
  intros Hraw Hlen Hcols.
  destruct (mapM_clamp raw) as (emitted & Hclamp & Hem).
  rewrite (predict_stage_unfold _ _ _ _ _ Hraw Hlen Hclamp).
  set (df := setitem (setitem df_2025 prediction_col (map cell_of_float raw))
                     prediction_col emitted).
  destruct (select_elem df output_cols) as [out Hout].
  { intros c Hc. unfold output_cols in Hc.
    apply elem_of_cons in Hc as [->|Hc]; [|apply elem_of_cons in Hc as [->|Hc];
      [|apply elem_of_cons in Hc as [->|Hc]]].
    - do 2 apply columns_setitem_elem. apply Hcols. set_solver.
    - do 2 apply columns_setitem_elem. apply Hcols. set_solver.
    - do 2 apply columns_setitem_elem. apply Hcols. set_solver.
    - apply list_elem_of_singleton in Hc as ->.
      eapply getitem_Ok_elem, getitem_setitem_eq. }
  rewrite Hout. exists df, out, emitted.
  split; [done|]. split; [by eapply select_columns|]. split; [|done].
  rewrite (select_getitem _ _ _ _ Hout); [apply getitem_setitem_eq|].
  unfold output_cols, prediction_col. set_solver.
Qed.

End PredictorFacts.

(** ** The theorems at work on the example tables *)

Section Witnesses.
Import Frame Example.

(** The grouping on the example frames: the two rows of (W1, 2023, 5) give
    one row that holds their means. *)
Example aggregate_duplicates_averaged_example :
  exists r,
    filter (fun r => Aggregator.sort_key r = ("W1"%string, 2023, 5))
           (Aggregator.aggregate boundaries vi_files) = [r]
    /\ Aggregator.avg_ndvi (Aggregator.obs r) = Some (4 # 2)%Q
    /\ Aggregator.avg_savi (Aggregator.obs r) = Some (10 # 2)%Q.
Proof.
  destruct (aggregate_duplicates_averaged boundaries vi_files "W1" 2023 5)
    as (r & Hr & Hn & Hs & _).
  - by eexists.
  - vm_compute. discriminate.
  - exists r. split; [exact Hr|]. split; [exact Hn|exact Hs].
Defined.

Lemma unmappable_unit_excluded_witness :
  Forall (fun r => Aggregator.woreda_id (Aggregator.obs r) <> "W9"%string)
         (Aggregator.aggregate boundaries vi_files)
  /\ Aggregator.aggregate boundaries vi_files
     = Aggregator.aggregate boundaries
         [filter (fun o => is_Some (boundaries !! Aggregator.woreda_id o))
                 (Aggregator.concat_frames vi_files)].
Proof.
  destruct (unmappable_unit_excluded boundaries vi_files
    (Aggregator.Build_vi_obs "W9" 2023 5 (Some 8%Q) (Some 8%Q)))
    as (_ & Hout & Hsame).
  - vm_compute. set_solver.
  - reflexivity.
  - split; [|exact Hsame]. apply Forall_forall. exact Hout.
Defined.

Lemma no_leakage_witness :
  Preparation.df_train_of master = Preparation.df_train_of master'
  /\ Preparation.statistics (H:=lib) master
     = Preparation.statistics (H:=lib) master'.
Proof.
  split; [reflexivity|].
  apply (no_leakage (H:=lib) master master'). reflexivity.
Defined.

(** The split of [master] and the frames after the loop, by computation. *)
Ltac with_imputed_master k :=
  let r := eval vm_compute in (Preparation.split master) in
  match r with
  | Ok (?sp, ?st0) =>
      let r' := eval vm_compute in
                  (Preparation.impute (Preparation.feature_cols sp) st0) in
      match r' with
      | Ok ?st => k sp st0 st
      end
  end.

Lemma imputation_guarded_by_training_column_witness :
  exists sp st0 st,
    Preparation.split master = Ok (sp, st0)
    /\ Preparation.impute (Preparation.feature_cols sp) st0 = Ok st
    /\ (exists xc yc,
          getitem (Preparation.X st0) "rain_total" = Ok xc
          /\ getitem (Preparation.X_2025 st0) "rain_total" = Ok yc
          /\ Preparation.col_imputed st0 st "rain_total"
          /\ (isnull_any xc = false -> isnull_any yc = true ->
                has_missing (Preparation.X_2025 st) = true))
    /\ Preparation.printed (Preparation.check_missing st)
       = Preparation.printed st ++ [Preparation.MissingValuesWarning].
Proof.
  with_imputed_master ltac:(fun sp st0 st =>
    exists sp, st0, st;
    destruct (imputation_guarded_by_training_column (H:=lib) master sp st0 st)
      as (Hcol & Hpr & _);
    [apply (bool_decide_unpack _); reflexivity|reflexivity|reflexivity|]).
  split; [reflexivity|]. split; [reflexivity|]. split.
  - apply Hcol. vm_compute. set_solver.
  - apply Hpr. reflexivity.
Defined.

Lemma lowest_rmse_selected_witness :
  exists st (i : nat) name m tr,
    Engine.training_loop (H:=lib) [] [] Engine.models = Ok st
    /\ Engine.best_model st = Some (name, tr)
    /\ Engine.models (H:=lib) !! i = Some (name, m)
    /\ Engine.cv_rmse (H:=lib) [] [] m = Ok (Engine.best_rmse st).
Proof.
  destruct (lowest_rmse_selected (H:=lib) [] [] Engine.models)
    as (st & i & name & m & tr & Hl & Hb & Hi & Hcv & _).
  - repeat (constructor; [reflexivity|]). constructor.
  - exists ("Ridge"%string, Ridge), (SFin 3). split; [|split; reflexivity].
    vm_compute. set_solver.
  - exists st, i, name, m, tr. by repeat split.
Defined.

Lemma variant_failure_aborts_run_witness :
  Predictor.notebook (H:=lib) catalog_with_failure (Some master)
  = Raise (ValueError "did not converge").
Proof.
  let r := eval vm_compute in (Preparation.prepare (H:=lib) master) in
  match r with
  | Ok ?p =>
      refine (proj2 (proj2 (variant_failure_aborts_run (H:=lib) master p
        [("Random Forest"%string, variant [16; 16] 4)]
        "XGBoost" (failing (ValueError "did not converge"))
        [("Ridge"%string, variant [9; 9] 5)]
        (ValueError "did not converge") _ _ _)))
  end.
  - reflexivity.
  - repeat (constructor; [reflexivity|]). constructor.
  - reflexivity.
Defined.

Lemma winner_is_refit_on_training_population_witness :
  exists p t m,
    Preparation.prepare (H:=lib) master = Ok p
    /\ Engine.train_stage (H:=lib) Engine.models p = Ok t
    /\ (fst (Engine.winner t), m) ∈ Engine.models (H:=lib)
    /\ estimator_fit (Library:=lib) m (Preparation.X_scaled_df p)
         (Preparation.y (Preparation.data (Preparation.fit_of p)))
       = Ok (Engine.saved_model t).
Proof.
  let r := eval vm_compute in (Preparation.prepare (H:=lib) master) in
  match r with
  | Ok ?p =>
      let r' := eval vm_compute in (Engine.train_stage (H:=lib) Engine.models p) in
      match r' with
      | Ok ?t =>
          exists p, t;
          destruct (winner_is_refit_on_training_population (H:=lib)
                      Engine.models p t) as (m & Hin & Hfit & Hs);
          [reflexivity|exists m]
      end
  end.
  split; [reflexivity|]. split; [reflexivity|]. split; [exact Hin|].
  rewrite Hs. exact Hfit.
Defined.

Lemma predictions_clamped_witness :
  exists df out emitted,
    Predictor.predict_stage (H:=lib)
      ("XGBoost"%string,
       {| neg_mse := []; cv_raises := None; fit_raises := None;
          fitted_on := Some ([], []); constant := Some (-3)%Q |})
      [("ndvi_mean"%string, [num 0; num 0])]
      [("woreda_id"%string, [Str "W1"; Str "W2"]);
       ("woreda_name"%string, [Str "Aleta"; Str "Bensa"]);
       ("year"%string, [num 2025; num 2025])] = Ok (df, out)
    /\ columns out = Predictor.output_cols
    /\ getitem out Predictor.prediction_col = Ok emitted
    /\ Forall2 Predictor.emitted_for [Some (-3)%Q; Some (-3)%Q] emitted.
Proof.
  apply (predictions_clamped (H:=lib)).
  - reflexivity.
  - reflexivity.
  - intros c Hc. vm_compute. set_solver.
Defined.

(** *** Where the code departs from the specification *)

(** C4.  The loop leaves a missing value in the prediction frame, and the
    check after it does not stop the run.  [rain_total] has no missing
    value in the training rows of [master] and one in its 2025 rows.  The
    guard of the loop (l.93) tests the training column only, so neither
    the mean is computed nor the 2025 column filled, although the comments
    of l.90-91 and l.99 say that both frames are transformed and that no
    missing value should be left; [ndvi_mean], whose training column has a
    missing value, is filled in both frames.  After the loop the value is
    still missing, and the check (l.100-101) prints a warning and returns
    the frames as they are. *)
Theorem missing_value_left_in_prediction_frame :
  exists sp st0 st,
    Preparation.split master = Ok (sp, st0)
    /\ Preparation.feature_cols sp = ["ndvi_mean"; "rain_total"]%string
    /\ Preparation.impute (Preparation.feature_cols sp) st0 = Ok st
    /\ getitem (Preparation.X st0) "rain_total"
         = Ok [num 10; num 20; num 30]
    /\ getitem (Preparation.X_2025 st0) "rain_total" = Ok [NaN; num 40]
    /\ getitem (Preparation.X_2025 st) "rain_total" = Ok [NaN; num 40]
    /\ getitem (Preparation.X_2025 st) "ndvi_mean"
         = Ok [Num (4 # 2); num 2]
    /\ has_missing (Preparation.X_2025 st) = true
    /\ Preparation.printed (Preparation.check_missing st)
         = [Preparation.Imputed "ndvi_mean" (Num (4 # 2));
            Preparation.MissingValuesWarning]
    /\ Preparation.X (Preparation.check_missing st) = Preparation.X st
    /\ Preparation.X_2025 (Preparation.check_missing st)
         = Preparation.X_2025 st.
Proof.
  with_imputed_master ltac:(fun sp st0 st => exists sp, st0, st).
  repeat split.
Qed.

(** C5 fails on the code: in [catalog_with_failure] the first and the third
    variant train without raising, the refit of the second raises, and the
    notebook ends with that exception instead of a winner. *)
Lemma failing_variant_is_not_isolated :
  (fun p =>
     let Xs := Preparation.X_scaled_df p in
     let yv := Preparation.y (Preparation.data (Preparation.fit_of p)) in
     is_ok (Engine.variant_result (H:=lib) Xs yv (variant [16; 16] 4))
     && is_ok (Engine.variant_result (H:=lib) Xs yv (variant [9; 9] 5)))
    <$> Preparation.prepare (H:=lib) master = Ok true
  /\ is_ok (Predictor.notebook (H:=lib) catalog_with_failure (Some master))
     = false.
Proof. split; reflexivity. Qed.

(** *** The example run *)

(** On [master] the catalog of the example library has two variants with the
    lowest mean RMSE, XGBoost and Ridge; the earlier one is selected, its
    negative predictions are written as zeros, one row per 2025 row. *)
Example example_run :
  (fun o => match o with
            | Some (_, t, out) =>
                Some (fst (Engine.winner t), getitem out Predictor.prediction_col)
            | None => None
            end)
    <$> Predictor.notebook (H:=lib) Engine.models (Some master)
  = Ok (Some ("XGBoost"%string, Ok [Num 0; Num 0])).
Proof. reflexivity. Qed.

End Witnesses.

(** * Further properties of the notebooks *)

(** ** Sorted lists *)

Section SortedFacts.
Context {A : Type} (leb : A -> A -> bool).
Hypothesis leb_total : forall a b, leb a b = false -> leb b a = true.
Hypothesis leb_trans :
  forall a b c, leb a b = true -> leb b c = true -> leb a c = true.

Lemma insert_sorted_StronglySorted x l :
  StronglySorted (fun a b => leb a b = true) l ->
  StronglySorted (fun a b => leb a b = true) (insert_sorted leb x l).
Proof.
  induction 1 as [|y l Hl IH Hy]; simpl.
  - repeat constructor.
  - destruct (leb x y) eqn:Hxy.
    + constructor; [by constructor|].
      constructor; [done|].
      eapply Forall_impl; [exact Hy|]. intros z Hz. by eapply leb_trans.
    + constructor; [done|].
      rewrite insert_sorted_perm. constructor; [by apply leb_total|done].
Qed.

Lemma sort_by_StronglySorted l :
  StronglySorted (fun a b => leb a b = true) (sort_by leb l).
Proof.
  induction l as [|x l IH]; simpl; [constructor|].
  by apply insert_sorted_StronglySorted.
Qed.

(** The first [n] elements of a sorted list come before all the others. *)
Lemma sort_by_firstn n l a b :
  a ∈ firstn n (sort_by leb l) -> b ∈ skipn n (sort_by leb l) ->
  leb a b = true.
Proof.
  intros Ha Hb. pose proof (sort_by_StronglySorted l) as Hs.
  rewrite <- (firstn_skipn n (sort_by leb l)) in Hs.
  by eapply (StronglySorted_app_1_elem_of _ _ _ _ _ Hs).
Qed.
End SortedFacts.

(** ** The order of Python on strings *)

Lemma ascii_compare_refl a : Ascii.compare a a = Eq.
Proof. apply N.compare_refl. Qed.

Lemma ascii_compare_lt_trans a b c :
  Ascii.compare a b = Lt -> Ascii.compare b c = Lt -> Ascii.compare a c = Lt.
Proof. unfold Ascii.compare. rewrite !N.compare_lt_iff. lia. Qed.

Lemma string_compare_refl s : String.compare s s = Eq.
Proof.
  induction s as [|a s IH]; simpl; [done|]. by rewrite ascii_compare_refl.
Qed.

Lemma string_compare_lt_trans s1 s2 s3 :
  String.compare s1 s2 = Lt -> String.compare s2 s3 = Lt ->
  String.compare s1 s3 = Lt.
Proof.
  revert s2 s3. induction s1 as [|a s1 IH]; intros [|b s2] [|c s3]; simpl;
    try done.
  destruct (Ascii.compare a b) eqn:Hab; [|clear IH|done].
  - apply Ascii.compare_eq_iff in Hab as ->.
    destruct (Ascii.compare b c); [apply IH|done|done].
  - destruct (Ascii.compare b c) eqn:Hbc; intros _ Hlt.
    + apply Ascii.compare_eq_iff in Hbc as <-. by rewrite Hab.
    + by rewrite (ascii_compare_lt_trans _ _ _ Hab Hbc).
    + done.
Qed.

Lemma string_ltb_irrefl s : String.ltb s s = false.
Proof. unfold String.ltb. by rewrite string_compare_refl. Qed.

Lemma string_ltb_trans s1 s2 s3 :
  String.ltb s1 s2 = true -> String.ltb s2 s3 = true -> String.ltb s1 s3 = true.
Proof.
  unfold String.ltb.
  destruct (String.compare s1 s2) eqn:H12; try done.
  destruct (String.compare s2 s3) eqn:H23; try done.
  by rewrite (string_compare_lt_trans _ _ _ H12 H23).
Qed.

Lemma string_ltb_total s1 s2 :
  String.ltb s1 s2 = false -> String.ltb s2 s1 = false -> s1 = s2.
Proof.
  unfold String.ltb. rewrite (String.compare_antisym s2 s1).
  destruct (String.compare s1 s2) eqn:H12; simpl; try done.
  intros _ _. by apply String.compare_eq_iff.
Qed.

(** ** The aggregated table of notebook 05 *)

Lemma string_ltb_asym s1 s2 :
  String.ltb s1 s2 = true -> String.ltb s2 s1 = false.
Proof.
  intros H12. destruct (String.ltb s2 s1) eqn:H21; [|done].
  by rewrite <- (string_ltb_irrefl s1), (string_ltb_trans _ _ _ H12 H21).
Qed.

Lemma key_lt_trans a b c : key_lt a b -> key_lt b c -> key_lt a c.
Proof.
  destruct a as [[i1 y1] m1], b as [[i2 y2] m2], c as [[i3 y3] m3]. simpl.
  intros [H12|[-> H12]] [H23|[-> H23]].
  - left. by eapply string_ltb_trans.
  - by left.
  - by left.
  - right. split; [done|]. lia.
Qed.

Lemma key_lt_irrefl a : ~ key_lt a a.
Proof.
  destruct a as [[i y] m]. simpl. rewrite string_ltb_irrefl.
  intros [?|[_ ?]]; [done|lia].
Qed.

Lemma sort_leb_spec a b :
  Aggregator.sort_leb a b = true <->
  key_lt (Aggregator.sort_key a) (Aggregator.sort_key b)
  \/ Aggregator.sort_key a = Aggregator.sort_key b.
Proof.
  unfold Aggregator.sort_leb.
  destruct (Aggregator.sort_key a) as [[i1 y1] m1].
  destruct (Aggregator.sort_key b) as [[i2 y2] m2]. simpl.
  destruct (String.ltb i1 i2) eqn:H12.
  { split; [by left; left|done]. }
  destruct (String.ltb i2 i1) eqn:H21.
  { split; [done|]. intros [[?|[-> _]]|[= -> _ _]]; [done| |];
      by rewrite string_ltb_irrefl in H21. }
  pose proof (string_ltb_total _ _ H12 H21) as ->.
  destruct (Z.ltb_spec y1 y2).
  { split; [intros _; left; right; split; [done|by left]|done]. }
  destruct (Z.ltb_spec y2 y1).
  { split; [done|]. intros [[?|[_ ?]]|[= ? _]]; [done|lia|lia]. }
  rewrite Z.leb_le. split.
  - intros Hm. destruct (decide (m1 = m2)) as [->|Hne].
    + right. f_equal. f_equal. lia.
    + left. right. split; [done|]. right. lia.
  - intros [[?|[_ ?]]|[= _ ?]]; [done|lia|lia].
Qed.

Lemma sort_leb_total a b :
  Aggregator.sort_leb a b = false -> Aggregator.sort_leb b a = true.
Proof.
  unfold Aggregator.sort_leb.
  destruct (Aggregator.sort_key a) as [[i1 y1] m1].
  destruct (Aggregator.sort_key b) as [[i2 y2] m2].
  destruct (String.ltb i1 i2) eqn:H12; [done|].
  destruct (String.ltb i2 i1) eqn:H21; [done|].
  destruct (Z.ltb_spec y1 y2); [done|].
  destruct (Z.ltb_spec y2 y1); [done|].
  rewrite Z.leb_gt, Z.leb_le. lia.
Qed.

Lemma sort_leb_trans a b c :
  Aggregator.sort_leb a b = true -> Aggregator.sort_leb b c = true ->
  Aggregator.sort_leb a c = true.
Proof.
  rewrite !sort_leb_spec. intros [H1|H1] [H2|H2].
  - left. by eapply key_lt_trans.
  - left. by rewrite <- H2.
  - left. by rewrite H1.
  - right. congruence.
Qed.

Lemma StronglySorted_NoDup_strict {A B} (R : A -> A -> Prop) (f : A -> B) l :
  StronglySorted R l -> NoDup (map f l) ->
  StronglySorted (fun a b => R a b /\ f a <> f b) l.
Proof.
  induction 1 as [|x l Hl IH Hx]; simpl; [constructor|].
  intros [Hnin Hnd]%NoDup_cons. constructor; [by apply IH|].
  apply Forall_forall. intros y Hy. split.
  - by eapply Forall_forall in Hx.
  - intros Heq. apply Hnin. rewrite Heq. apply list_elem_of_In, in_map.
    by apply list_elem_of_In.
Qed.

Section AggregatedTable.
Import Aggregator.
Variable woreda_name_map : gmap string string.

Lemma sort_key_groupby_mean rows :
  map sort_key (groupby_mean rows) = map key3 (group_keys rows).
Proof.
  unfold groupby_mean. rewrite map_map. apply map_ext.
  by intros [[[i n] y] m].
Qed.

Lemma aggregate_keys_NoDup all_vi_data :
  NoDup (map sort_key (aggregate woreda_name_map all_vi_data)).
Proof.
  unfold aggregate, sort_values. rewrite sort_by_perm.
  rewrite sort_key_groupby_mean.
  apply (NoDup_fmap_2_strong key3); [|apply group_keys_NoDup].
  intros [[[i1 n1] y1] m1] [[[i2 n2] y2] m2] H1 H2 [= -> -> ->].
  apply group_keys_elem, list_elem_of_In, in_map_iff in H1 as (r1 & E1 & R1).
  apply group_keys_elem, list_elem_of_In, in_map_iff in H2 as (r2 & E2 & R2).
  apply list_elem_of_In, mapped_rows_elem in R1 as [N1 _].
  apply list_elem_of_In, mapped_rows_elem in R2 as [N2 _].
  unfold key_of in E1, E2. injection E1 as Hi1 Hn1 _ _.
  injection E2 as Hi2 Hn2 _ _.
  rewrite Hi1, Hn1 in N1. rewrite Hi2, Hn2 in N2. congruence.
Qed.

(** The rows of the aggregated table, one by one: a row is in the table
    exactly when it is the row of means of the observations of a known unit
    in some year and month for which there is at least one observation. *)
Lemma aggregate_row_spec all_vi_data r :
  r ∈ aggregate woreda_name_map all_vi_data <->
  exists i n y mo,
    let dups :=
      filter (fun o => obs_key o = (i, y, mo)) (concat_frames all_vi_data) in
    woreda_name_map !! i = Some n /\ dups <> []
    /\ r = {| obs := {| woreda_id := i; year := y; month := mo;
                        avg_ndvi := series_mean (map avg_ndvi dups);
                        avg_savi := series_mean (map avg_savi dups) |};
              woreda_name := n |}.
Proof.
  unfold aggregate, sort_values. rewrite sort_by_perm.
  fold (mapped_rows woreda_name_map (concat_frames all_vi_data)).
  set (l := concat_frames all_vi_data).
  unfold groupby_mean. rewrite list_elem_of_In, in_map_iff. split.
  - intros ([[[i n] y] mo] & <- & Hk).
    apply list_elem_of_In, group_keys_elem, list_elem_of_In, in_map_iff in Hk
      as (r' & Hk & Hr').
    apply list_elem_of_In in Hr'.
    pose proof (mapped_rows_elem _ _ _ Hr') as [Hn Ho].
    unfold key_of in Hk. injection Hk as Hi Hnn Hy Hm.
    rewrite Hi, Hnn in Hn.
    exists i, n, y, mo. simpl. split; [done|]. split.
    + intros Hnil.
      assert (Hin : obs r' ∈ filter (fun o => obs_key o = (i, y, mo)) l).
      { apply list_elem_of_filter. split; [|done].
        unfold obs_key. by rewrite Hi, Hy, Hm. }
      rewrite Hnil in Hin. by apply elem_of_nil in Hin.
    + by rewrite <- !(mapped_rows_group _ i n y mo l Hn), !map_map.
  - intros (i & n & y & mo & Hn & Hne & ->).
    exists (i, n, y, mo). split.
    + by rewrite <- !(mapped_rows_group _ i n y mo l Hn), !map_map.
    + apply list_elem_of_In, group_keys_elem, list_elem_of_In, in_map_iff.
      destruct (filter _ l) as [|o dups'] eqn:Hd; [done|].
      assert (Ho : o ∈ filter (fun o => obs_key o = (i, y, mo)) l).
      { rewrite Hd. left. }
      apply list_elem_of_filter in Ho as [Hk Ho].
      injection Hk as Hi Hy Hm.
      exists {| obs := o; woreda_name := n |}. split.
      * unfold key_of. simpl. by rewrite Hi, Hy, Hm.
      * apply list_elem_of_In, mapped_rows_intro; [done|by rewrite Hi].
Qed.

Lemma aggregate_sorted all_vi_data :
  StronglySorted (fun a b => key_lt (sort_key a) (sort_key b))
    (aggregate woreda_name_map all_vi_data).
Proof.
  pose proof (aggregate_keys_NoDup all_vi_data) as Hnd.
  assert (Hs : StronglySorted (fun a b => sort_leb a b = true)
                 (aggregate woreda_name_map all_vi_data)).
  { apply sort_by_StronglySorted; [apply sort_leb_total|apply sort_leb_trans]. }
  pose proof (StronglySorted_NoDup_strict _ sort_key _ Hs Hnd) as Hst.
  clear Hs Hnd.
  induction Hst as [|x l Hl IH Hx]; constructor; [done|].
  eapply Forall_impl; [exact Hx|]. intros y [Hle Hne]. simpl in *.
  apply sort_leb_spec in Hle as [?|?]; done.
Qed.

Lemma aggregate_key_elem all_vi_data k :
  k ∈ map sort_key (aggregate woreda_name_map all_vi_data) <->
  exists o, o ∈ concat_frames all_vi_data
            /\ is_Some (woreda_name_map !! woreda_id o) /\ obs_key o = k.
Proof.
  rewrite list_elem_of_In, in_map_iff. split.
  - intros (r & <- & Hr).
    apply list_elem_of_In, aggregate_row_spec in Hr
      as (i & n & y & mo & Hn & Hne & ->). simpl in *.
    destruct (filter _ _) as [|o dups'] eqn:Hd; [done|].
    assert (Ho : o ∈ filter (fun o => obs_key o = (i, y, mo))
                   (concat_frames all_vi_data)).
    { rewrite Hd. left. }
    apply list_elem_of_filter in Ho as [Hk Ho]. exists o.
    split; [done|]. split; [|done]. injection Hk as -> _ _. by eexists.
  - intros (o & Ho & [n Hn] & <-).
    eexists. split; [|apply list_elem_of_In, aggregate_row_spec].
    2:{ exists (woreda_id o), n, (year o), (month o). simpl.
        split; [done|]. split; [|reflexivity].
        intros Hnil.
        assert (Hin : o ∈ filter
                  (fun o' => obs_key o' = (woreda_id o, year o, month o))
                  (concat_frames all_vi_data)).
        { by apply list_elem_of_filter. }
        rewrite Hnil in Hin. by apply elem_of_nil in Hin. }
    done.
Qed.

(** X1.  The table written by notebook 05 is strictly ascending in
    (woreda_id, year, month), strings compared as Python compares them: a
    row that comes earlier has the smaller key, so no key occurs twice. *)
Theorem aggregate_strictly_ascending all_vi_data :
  StronglySorted (fun a b => key_lt (sort_key a) (sort_key b))
    (aggregate woreda_name_map all_vi_data)
  /\ NoDup (map sort_key (aggregate woreda_name_map all_vi_data)).
Proof. split; [apply aggregate_sorted|apply aggregate_keys_NoDup]. Qed.

(** X2.  The aggregation invents no row: every row it returns carries the
    key (woreda_id, year, month) of an observation it was given whose unit
    is in the boundary table, and the name that the table gives to that
    unit. *)
Theorem aggregate_keys_come_from_observations all_vi_data :
  Forall (fun r => exists o,
            o ∈ concat_frames all_vi_data
            /\ obs_key o = sort_key r
            /\ woreda_name_map !! woreda_id o = Some (woreda_name r))
         (aggregate woreda_name_map all_vi_data).
Proof.
  apply Forall_forall. intros r Hr.
  apply aggregate_row_spec in Hr as (i & n & y & mo & Hn & Hne & ->).
  simpl in *.
  destruct (filter _ _) as [|o dups'] eqn:Hd; [done|].
  assert (Ho : o ∈ filter (fun o => obs_key o = (i, y, mo))
                 (concat_frames all_vi_data)).
  { rewrite Hd. left. }
  apply list_elem_of_filter in Ho as [Hk Ho]. exists o.
  split; [done|]. split; [done|]. by injection Hk as -> _ _.
Qed.

End AggregatedTable.

(** ** Means of groups *)

Lemma series_mean_None col :
  series_mean col = None <-> Forall (fun v => v = None) col.
Proof.
  unfold series_mean, present. split.
  - destruct (omap id col) as [|v vs] eqn:Hp; [|done]. intros _.
    induction col as [|[x|] col IH]; simpl in Hp; [done|done|].
    constructor; [done|by apply IH].
  - intros Hall.
    assert (Hp : omap id col = []).
    { induction Hall as [|? col -> _ IH]; [done|]. simpl. exact IH. }
    by rewrite Hp.
Qed.

Section GroupMeans.
Import Aggregator.
Variable woreda_name_map : gmap string string.


End GroupMeans.

(** ** Strings: suffixes and replacement *)

Lemma string_app_assoc (s1 s2 s3 : string) :
  (s1 +:+ s2) +:+ s3 = s1 +:+ (s2 +:+ s3).
Proof.
  induction s1 as [|c s1 IH]; [done|].
  change (String c ((s1 +:+ s2) +:+ s3) = String c (s1 +:+ (s2 +:+ s3))).
  by rewrite IH.
Qed.

Lemma string_rev_app_acc s acc :
  String.rev_app s acc = String.rev_app s "" +:+ acc.
Proof.
  revert acc. induction s as [|c s IH]; intros acc; [done|].
  simpl. rewrite (IH (String c acc)), (IH (String c "")).
  by rewrite string_app_assoc.
Qed.

Lemma string_rev_app_distr s t :
  String.rev (s +:+ t) = String.rev t +:+ String.rev s.
Proof.
  unfold String.rev. induction s as [|c s IH].
  - change ("" +:+ t) with t. simpl.
    induction (String.rev_app t "") as [|c r IHr]; [done|].
    change (String c r = String c (r +:+ "")). by rewrite <- IHr.
  - change (String c s +:+ t) with (String c (s +:+ t)). simpl.
    rewrite string_rev_app_acc, IH, (string_rev_app_acc s (String c "")).
    by rewrite string_app_assoc.
Qed.

Lemma string_prefix_cons a p b s :
  String.prefix (String a p) (String b s) =
  bool_decide (a = b) && String.prefix p s.
Proof.
  change (String.prefix (String a p) (String b s))
    with (match Ascii.ascii_dec a b with
          | left _ => String.prefix p s
          | right _ => false
          end).
  destruct (Ascii.ascii_dec a b); case_bool_decide; done.
Qed.

Lemma string_prefix_nil_r a p : String.prefix (String a p) "" = false.
Proof. done. Qed.

Lemma string_prefix_nil_l s : String.prefix "" s = true.
Proof. by destruct s. Qed.

Lemma string_prefix_app p s : String.prefix p (p +:+ s) = true.
Proof.
  induction p as [|c p IH]; [by destruct s|].
  change (String c p +:+ s) with (String c (p +:+ s)).
  rewrite string_prefix_cons, IH. by case_bool_decide.
Qed.

Lemma ends_with_app p s : Loader.ends_with p (s +:+ p) = true.
Proof.
  unfold Loader.ends_with. rewrite string_rev_app_distr.
  apply string_prefix_app.
Qed.

Ltac case_prefix :=
  repeat change (String ?a ?s +:+ ?t) with (String a (s +:+ t));
  change (EmptyString +:+ ?t) with t;
  repeat first
    [ rewrite string_prefix_cons
    | rewrite string_prefix_nil_r
    | rewrite string_prefix_nil_l ];
  repeat (case_bool_decide; try subst; try done).

(** Whether [".csv"] or ["sentinel2_"] starts at a position before an
    appended [".csv"] does not depend on the appended text: an occurrence
    cannot run into it. *)
Lemma prefix_csv_app t :
  t <> ""%string ->
  String.prefix ".csv" (t +:+ ".csv") = String.prefix ".csv" t.
Proof.
  intros Hne. destruct t as [|a1 [|a2 [|a3 [|a4 t]]]]; [done|..];
    by case_prefix.
Qed.

Lemma prefix_sentinel_app t :
  String.prefix "sentinel2_" (t +:+ ".csv") = String.prefix "sentinel2_" t.
Proof.
  destruct t as [|a1 [|a2 [|a3 [|a4 [|a5 [|a6 [|a7 [|a8 [|a9 [|a10 t]]]]]]]]]];
    [done|..]; by case_prefix.
Qed.

Lemma replace_from_clean old new s suffix :
  (forall t, t <> ""%string ->
     String.prefix old (t +:+ suffix) = String.prefix old t) ->
  Loader.occurs old s = false ->
  Loader.replace_from old new 0 (s +:+ suffix) =
  s +:+ Loader.replace_from old new 0 suffix.
Proof.
  intros Hsuf. induction s as [|c s IH]; [done|].
  intros Hocc. change (Loader.occurs old (String c s))
    with (String.prefix old (String c s) || Loader.occurs old s) in Hocc.
  apply orb_false_iff in Hocc as [Hp Hocc].
  change (String c s +:+ suffix) with (String c (s +:+ suffix)).
  change (Loader.replace_from old new 0 (String c (s +:+ suffix)))
    with (if String.prefix old (String c (s +:+ suffix))
          then new +:+ Loader.replace_from old new (String.length old - 1)
                         (s +:+ suffix)
          else String c (Loader.replace_from old new 0 (s +:+ suffix))).
  change (String c (s +:+ suffix)) with (String c s +:+ suffix) at 1.
  rewrite (Hsuf (String c s)), Hp by done.
  by rewrite IH.
Qed.

Lemma replace_from_skip old new p s :
  Loader.replace_from old new (String.length p) (p +:+ s) =
  Loader.replace_from old new 0 s.
Proof. induction p as [|c p IH]; [done|exact IH]. Qed.

(** An occurrence at the start is replaced, and the scan goes on behind
    it. *)
Lemma replace_from_occurrence old new s :
  old <> ""%string ->
  Loader.replace_from old new 0 (old +:+ s) =
  new +:+ Loader.replace_from old new 0 s.
Proof.
  destruct old as [|c old]; [done|]. intros _.
  change (String c old +:+ s) with (String c (old +:+ s)).
  change (Loader.replace_from (String c old) new 0 (String c (old +:+ s)))
    with (if String.prefix (String c old) (String c (old +:+ s))
          then new +:+ Loader.replace_from (String c old) new
                         (String.length (String c old) - 1) (old +:+ s)
          else String c (Loader.replace_from (String c old) new 0
                           (old +:+ s))).
  change (String c (old +:+ s)) with (String c old +:+ s) at 1.
  rewrite string_prefix_app.
  change (String.length (String c old) - 1)%nat
    with (String.length old - 0)%nat.
  by rewrite Nat.sub_0_r, replace_from_skip.
Qed.

(** X6.  A unit id is read back from the name of its export file: for an
    id that contains neither ["sentinel2_"] nor [".csv"], the file
    [sentinel2_<id>.csv] is taken for an export and the inferred id is
    [<id>]. *)
Theorem infer_id_round_trip (id : string) :
  Loader.occurs "sentinel2_" id = false ->
  Loader.occurs ".csv" id = false ->
  Loader.is_export ("sentinel2_" +:+ id +:+ ".csv") = true
  /\ Loader.infer_id ("sentinel2_" +:+ id +:+ ".csv") = id.
Proof.
  intros Hs Hc. split.
  - unfold Loader.is_export.
    rewrite string_prefix_app, <- string_app_assoc, ends_with_app. done.
  - unfold Loader.infer_id, Loader.replace.
    rewrite replace_from_occurrence by done.
    change ("" +:+ ?t) with t.
    rewrite (replace_from_clean "sentinel2_" "" id ".csv");
      [|intros t _; apply prefix_sentinel_app|done].
    change (Loader.replace_from "sentinel2_" "" 0 ".csv") with ".csv"%string.
    rewrite (replace_from_clean ".csv" "" id ".csv");
      [|apply prefix_csv_app|done].
    change (Loader.replace_from ".csv" "" 0 ".csv") with ""%string.
    induction id as [|c r IHr]; [done|].
    change (String c (r +:+ "") = String c r). f_equal. apply IHr.
    + change (Loader.occurs "sentinel2_" (String c r)) with
        (String.prefix "sentinel2_" (String c r)
         || Loader.occurs "sentinel2_" r) in Hs.
      by apply orb_false_iff in Hs as [_ ?].
    + change (Loader.occurs ".csv" (String c r)) with
        (String.prefix ".csv" (String c r) || Loader.occurs ".csv" r) in Hc.
      by apply orb_false_iff in Hc as [_ ?].
Qed.


(** ** Lists of results *)

Lemma mapM_result_cons {A B} (f : A -> result B) x l :
  mapM f (x :: l) = y ← f x; k ← mapM f l; mret (y :: k).
Proof. done. Qed.

Lemma mapM_result_Ok {A B} (f : A -> result B) l zs :
  mapM f l = Ok zs <-> Forall2 (fun x z => f x = Ok z) l zs.
Proof.
  revert zs. induction l as [|x l IH]; intros zs.
  - split; [intros [= <-]; constructor|by inversion 1].
  - rewrite mapM_result_cons. split.
    + intros Hm. destruct (f x) as [y|e] eqn:Hx; [|done]. simpl in Hm.
      destruct (mapM f l) as [k|e] eqn:Hl; [|done]. simpl in Hm.
      injection Hm as <-. constructor; [done|]. by apply IH.
    + inversion 1 as [|? z ? k Hx Hl]; subst. rewrite Hx. simpl.
      apply IH in Hl. by rewrite Hl.
Qed.

(** ** The comparison table and the runs without a winner *)

Lemma slt_asym a b : slt a b = true -> slt b a = false.
Proof.
  intros Hab. destruct (slt b a) eqn:Hba; [|done].
  by rewrite <- (slt_irrefl a), (slt_trans _ _ _ Hab Hba).
Qed.

(** On scores that are no NaN, [a <= b] is transitive. *)
Lemma slt_false_trans a b c :
  b <> SNaN -> slt b a = false -> slt c b = false -> slt c a = false.
Proof.
  destruct a as [| |x|], b as [| |y|], c as [| |z|]; simpl; try done.
  intros _. rewrite !negb_false_iff. intros H1 H2.
  apply Qle_bool_iff in H1, H2. apply Qle_bool_iff.
  eapply Qle_trans; [exact H1|exact H2].
Qed.

Section ComparisonTable.
Import Frame Preparation Engine.
Context `{Library}.

Lemma rmse_leb_total a b : rmse_leb a b = false -> rmse_leb b a = true.
Proof.
  unfold rmse_leb.
  destruct (Avg_RMSE a) as [| |x|] eqn:Ha, (Avg_RMSE b) as [| |y|] eqn:Hb;
    try done.
  rewrite negb_false_iff. intros Hlt. by rewrite (slt_asym _ _ Hlt).
Qed.

Lemma rmse_leb_spec a b :
  rmse_leb a b = true <->
  Avg_RMSE b = SNaN
  \/ (Avg_RMSE a <> SNaN /\ Avg_RMSE b <> SNaN
      /\ slt (Avg_RMSE b) (Avg_RMSE a) = false).
Proof.
  unfold rmse_leb.
  destruct (Avg_RMSE a) as [| |x|], (Avg_RMSE b) as [| |y|];
    rewrite ?negb_true_iff;
    (split;
     [intros Hle; first [by left|right; by repeat split]
     |intros [Hn|(Ha & Hb & Hlt)]; done]).
Qed.

Lemma rmse_leb_trans a b c :
  rmse_leb a b = true -> rmse_leb b c = true -> rmse_leb a c = true.
Proof.
  rewrite !rmse_leb_spec. intros [Hb|(Ha & Hb & Hab)] [Hc|(Hb' & Hc & Hbc)].
  - by left.
  - by destruct Hb'.
  - by left.
  - right. split; [done|]. split; [done|].
    exact (slt_false_trans _ _ _ Hb Hab Hbc).
Qed.

Variables (Xs : DataFrame) (yv : Series).

(** The rows of [results] follow the catalog: one row per variant, in its
    order, with its name and its mean RMSE. *)
Lemma train_variant_row st name m st' :
  train_variant Xs yv st (name, m) = Ok st' ->
  exists row, results st' = results st ++ [row]
              /\ Model row = name /\ cv_rmse Xs yv m = Ok (Avg_RMSE row).
Proof.
  unfold train_variant, cv_rmse, avg_rmse_of. simpl. intros Ht.
  destruct (cross_val_score m Xs yv neg_mean_squared_error) as [mse|e];
    simpl in *; [|discriminate].
  destruct (cross_val_score m Xs yv r2) as [r2s|e]; simpl in *; [|discriminate].
  destruct (cross_val_score m Xs yv neg_mean_absolute_error) as [mae|e];
    simpl in *; [|discriminate].
  destruct (estimator_fit m Xs yv) as [tr|e]; simpl in *; [|discriminate].
  eexists. destruct (slt _ _); injection Ht as <-; simpl; done.
Qed.

Lemma training_loop_rows catalog st :
  training_loop Xs yv catalog = Ok st ->
  Forall2 (fun v row => Model row = fst v
                        /\ cv_rmse Xs yv (snd v) = Ok (Avg_RMSE row))
          catalog (results st).
Proof.
  unfold training_loop. revert st.
  induction catalog as [|[name m] catalog IH] using rev_ind; intros st Hl.
  - injection Hl as <-. constructor.
  - rewrite foldM_app in Hl. inv_bind Hl. simpl in Hl.
    destruct (train_variant Xs yv a (name, m)) as [st1|e] eqn:Ht;
      simpl in Hl; [|discriminate].
    injection Hl as <-.
    apply train_variant_row in Ht as (row & -> & Hn & Hs).
    apply Forall2_app; [by apply IH|]. by repeat constructor.
Qed.

End ComparisonTable.

Section Selection.
Import Frame Preparation Engine.
Context `{Library}.

(** X12.  When every variant of a catalog that is not empty trains without
    raising, section 4 selects a winner exactly when some variant has a mean
    RMSE below [+inf].  Otherwise (every mean RMSE is NaN or [+inf])
    [best_model] is still [None] after the loop and the run ends with the
    [TypeError] of [best_model['Model']]: no model is saved and nothing is
    predicted. *)
Theorem no_winner_raises_type_error catalog p :
  catalog <> [] ->
  Forall (fun v =>
            is_ok (variant_result (X_scaled_df p) (y (data (fit_of p))) (snd v))
            = true) catalog ->
  (train_stage catalog p =
     Raise (TypeError "'NoneType' object is not subscriptable") <->
   Forall (fun v => forall s,
             cv_rmse (X_scaled_df p) (y (data (fit_of p))) (snd v) = Ok s ->
             slt s SPosInf = false) catalog)
  /\ (is_ok (train_stage catalog p) = true <->
      Exists (fun v => exists s,
                cv_rmse (X_scaled_df p) (y (data (fit_of p))) (snd v) = Ok s
                /\ slt s SPosInf = true) catalog).
Proof.
  intros _ Hall.
  destruct (training_loop_total _ _ catalog Hall) as [st Hst].
  pose proof (training_loop_invariant _ _ catalog st Hst) as Hinv.
  unfold train_stage. rewrite Hst. simpl.
  unfold loop_invariant in Hinv.
  destruct (best_model st) as [best|].
  - destruct Hinv as (i & m & Hi & _ & Hcv & Hfin & _).
    apply list_elem_of_lookup_2 in Hi. split.
    + split; [done|]. intros Hnone.
      eapply Forall_forall in Hnone; [|exact Hi].
      rewrite (Hnone _ Hcv) in Hfin. done.
    + split; [|done]. intros _. apply Exists_exists.
      exists (fst best, m). split; [done|]. by exists (best_rmse st).
  - destruct Hinv as [_ Hnone]. split.
    + split; [|done]. intros _. apply Forall_forall. intros v Hv s Hs.
      apply list_elem_of_lookup_1 in Hv as [j Hj]. by eapply Hnone.
    + split; [done|]. intros (v & Hv & s & Hs & Hfin)%Exists_exists.
      apply list_elem_of_lookup_1 in Hv as [j Hj].
      rewrite (Hnone _ _ _ Hj Hs) in Hfin. done.
Qed.

(** X13.  The comparison table printed after the loop lists every variant
    of the catalog once, with its name and its mean RMSE, in ascending order
    of mean RMSE (NaN last).  The winner is on it, no row has a mean RMSE
    below the winner's, and the top row carries the winner's mean RMSE (it
    is the winner's row unless another variant ties with it). *)
Theorem comparison_table_agrees_with_winner catalog p t :
  train_stage catalog p = Ok t ->
  (exists rows,
     Forall2 (fun v row =>
                Model row = fst v
                /\ cv_rmse (X_scaled_df p) (y (data (fit_of p))) (snd v)
                   = Ok (Avg_RMSE row)) catalog rows
     /\ df_results t ≡ₚ rows)
  /\ StronglySorted (fun a b => rmse_leb a b = true) (df_results t)
  /\ exists w,
       w ∈ df_results t /\ Model w = fst (winner t)
       /\ slt (Avg_RMSE w) SPosInf = true
       /\ Forall (fun row => slt (Avg_RMSE row) (Avg_RMSE w) = false)
                 (df_results t)
       /\ (forall top, head (df_results t) = Some top ->
             slt (Avg_RMSE w) (Avg_RMSE top) = false).
Proof.
  unfold train_stage. intros Ht. inv_bind Ht.
  pose proof (training_loop_invariant _ _ _ _ Ha) as Hinv.
  pose proof (training_loop_rows _ _ _ _ Ha) as Hrows.
  unfold loop_invariant in Hinv.
  destruct (best_model a) as [best|]; [|discriminate].
  injection Ht as <-. simpl.
  assert (Hsorted : StronglySorted (fun a b => rmse_leb a b = true)
                      (sort_by rmse_leb (results a))).
  { apply sort_by_StronglySorted; [apply rmse_leb_total|apply rmse_leb_trans]. }
  split; [|split; [done|]].
  { exists (results a). split; [done|apply sort_by_perm]. }
  destruct Hinv as (i & m & Hi & _ & Hcv & Hfin & Hmin & _).
  destruct (Forall2_lookup_l _ _ _ _ _ Hrows Hi) as (w & Hw & Hname & Hcvw).
  simpl in Hname, Hcvw. rewrite Hcv in Hcvw. injection Hcvw as Hbest.
  assert (Hwin : w ∈ sort_by rmse_leb (results a)).
  { rewrite sort_by_perm. by eapply list_elem_of_lookup_2. }
  assert (Hbelow : Forall (fun row => slt (Avg_RMSE row) (Avg_RMSE w) = false)
                     (sort_by rmse_leb (results a))).
  { apply Forall_forall. intros row Hrow. rewrite sort_by_perm in Hrow.
    apply list_elem_of_lookup_1 in Hrow as [j Hj].
    destruct (Forall2_lookup_r _ _ _ _ _ Hrows Hj) as (e & He & _ & Hcve).
    rewrite <- Hbest. by eapply Hmin. }
  exists w. split; [done|]. split; [done|].
  split; [by rewrite <- Hbest|]. split; [done|].
  intros top Htop.
  destruct (sort_by rmse_leb (results a)) as [|top' rest] eqn:Hs; [done|].
  injection Htop as ->.
  apply elem_of_cons in Hwin as [->|Hwin]; [apply slt_irrefl|].
  apply StronglySorted_inv in Hsorted as [_ Hle].
  eapply Forall_forall in Hle; [|exact Hwin].
  apply rmse_leb_spec in Hle as [Hnan|(_ & _ & Hle)]; [|done].
  rewrite Hbest, Hnan in Hfin. done.
Qed.

End Selection.

(** ** Rows and columns of the prepared frames *)

Section Populations.
Import Frame Preparation.

Lemma getitem_missing df c : c ∉ columns df -> getitem df c = Raise (KeyError c).
Proof.
  intros Hnin. destruct (getitem df c) as [s|e] eqn:Hg.
  - exfalso. by apply Hnin, (getitem_Ok_elem _ _ s).
  - by apply getitem_Raise in Hg as [-> _].
Qed.

Lemma getitem_take_rows mask df c :
  getitem (take_rows mask df) c = take mask <$> getitem df c.
Proof.
  induction df as [|[n s] df IH]; [done|]. simpl.
  by destruct (String.eqb n c).
Qed.

Lemma take_notnull s : Forall (fun c => is_nan c = false) (take (notnull s) s).
Proof.
  induction s as [|c s IH]; simpl; [constructor|].
  destruct c; simpl; [done|by constructor..].
Qed.

Lemma take_eq_num n s :
  Forall (fun c => exists q, c = Num q /\ (q == n)%Q) (take (eq_num n s) s).
Proof.
  induction s as [|c s IH]; simpl; [constructor|].
  destruct c as [|q|t]; simpl; try done.
  destruct (Qeq_bool q n) eqn:Hq; [|done].
  constructor; [|done]. exists q. split; [done|by apply Qeq_bool_iff].
Qed.

Lemma length_take mask (s1 s2 : Series) :
  length s1 = length s2 -> length (take mask s1) = length (take mask s2).
Proof.
  revert s1 s2. induction mask as [|b mask IH]; intros [|c1 s1] [|c2 s2];
    simpl; try done.
  intros [= Hlen]. destruct b; simpl; rewrite (IH s1 s2); done.
Qed.

Lemma rectangular_getitem df c s :
  rectangular df -> getitem df c = Ok s -> length s = nrows df.
Proof.
  unfold rectangular. generalize (nrows df). intros n Hall.
  induction Hall as [|[k s0] df Hlen _ IH]; simpl; [done|].
  destruct (String.eqb k c); [by intros [= <-]|exact IH].
Qed.

(** X14.  Who is trained on and who is predicted for.  The training rows
    are the rows of the master table with a yield and the prediction rows
    are its rows of the year 2025, both in table order: the target column
    has no missing value left, and every feature column is cut by the same
    mask as the target, so on a rectangular table features and target stay
    aligned row by row. *)
Theorem split_keeps_rows_aligned df_master sp st0 :
  rectangular df_master ->
  split df_master = Ok (sp, st0) ->
  exists tgt yr,
    getitem df_master target_col = Ok tgt
    /\ getitem df_master "year" = Ok yr
    /\ y sp = take (notnull tgt) tgt
    /\ Forall (fun c => is_nan c = false) (y sp)
    /\ forall c, c ∈ feature_cols sp ->
         exists col,
           getitem df_master c = Ok col
           /\ getitem (X st0) c = Ok (take (notnull tgt) col)
           /\ getitem (X_2025 st0) c = Ok (take (eq_num 2025 yr) col)
           /\ length (take (notnull tgt) col) = length (y sp).
Proof.
  intros Hrect Hs.
  pose proof (split_Ok _ _ _ Hs) as (Htr & Hinf & Hcols & Hx & Hy & Hx25 & _).
  unfold df_train_of, dropna_subset in Htr. inv_bind Htr.
  injection Htr as Htr. rename a into tgt.
  unfold df_2025_of in Hinf. inv_bind Hinf. injection Hinf as Hinf.
  rename a into yr.
  rewrite <- Htr, getitem_take_rows, Ha in Hy. injection Hy as Hy.
  exists tgt, yr. split; [done|]. split; [done|]. split; [done|].
  split; [rewrite <- Hy; apply take_notnull|].
  intros c Hc.
  assert (Hin : c ∈ columns df_master).
  { rewrite Hcols in Hc. apply feature_cols_elem in Hc.
    by rewrite <- Htr, columns_take_rows in Hc. }
  destruct (getitem_elem _ _ Hin) as [col Hcol]. exists col.
  split; [done|].
  rewrite (select_getitem _ _ _ _ Hx Hc), (select_getitem _ _ _ _ Hx25 Hc).
  rewrite <- Htr, <- Hinf, !getitem_take_rows, Hcol. simpl.
  split; [done|]. split; [done|]. rewrite <- Hy. apply length_take.
  by rewrite (rectangular_getitem _ _ _ Hrect Hcol),
             (rectangular_getitem _ _ _ Hrect Ha).
Qed.

(** X15.  The target and the three identifiers are never features, and
    every other column of the master table is one, whatever it holds, in the
    order of the table; the scaled frames that the models see have exactly
    these columns. *)
Theorem target_is_never_a_feature `{Library} df_master p :
  prepare df_master = Ok p ->
  feature_cols (data (fit_of p)) =
    filter (fun c => c ∉ excluded) (columns df_master)
  /\ Forall (fun c => c ∉ feature_cols (data (fit_of p))) excluded
  /\ columns (X_scaled_df p) = feature_cols (data (fit_of p))
  /\ columns (X_2025_scaled_df p) = feature_cols (data (fit_of p)).
Proof.
  intros Hp. unfold prepare in Hp. inv_bind Hp.
  unfold fit_stage in Ha. inv_bind Ha. injection Ha as <-.
  unfold transform_stage in Hp. simpl in Hp. inv_bind Hp.
  injection Hp as <-. simpl. destruct a0 as [sp st0]. simpl in *.
  pose proof (split_Ok _ _ _ Ha0) as (Htr & _ & Hc & _).
  assert (Hcols : feature_cols sp =
                  filter (fun c => c ∉ excluded) (columns df_master)).
  { rewrite Hc. unfold feature_cols_of.
    by rewrite (dropna_subset_columns _ _ _ Htr). }
  split; [done|]. split.
  - apply Forall_forall. intros c Hex Hin. rewrite Hcols in Hin.
    by apply list_elem_of_filter in Hin as [Hnot _].
  - split; by eapply frame_of_ndarray_columns.
Qed.

(** X16.  A master table without the yield column, or without the year
    column, ends the run with a [KeyError] on that name in the first two
    lines of section 3: nothing is imputed, scaled, trained or written. *)
Theorem missing_column_raises_key_error `{Library} catalog df_master :
  (target_col ∉ columns df_master ->
   Predictor.notebook catalog (Some df_master) = Raise (KeyError target_col))
  /\ (target_col ∈ columns df_master ->
      "year"%string ∉ columns df_master ->
      Predictor.notebook catalog (Some df_master) = Raise (KeyError "year")).
Proof.
  unfold Predictor.notebook, prepare, fit_stage, split, df_train_of,
    df_2025_of, dropna_subset. split.
  - intros Hnin. by rewrite (getitem_missing _ _ Hnin).
  - intros Hin Hnin. destruct (getitem_elem _ _ Hin) as [s ->]. simpl.
    by rewrite (getitem_missing _ _ Hnin).
Qed.

End Populations.

(** ** The rows of the prediction table *)

Section PredictionRows.
Import Frame Preparation Engine Predictor.
Context `{Library}.

Lemma prepare_df_2025 df_master p :
  prepare df_master = Ok p ->
  exists yr, getitem df_master "year" = Ok yr
             /\ df_2025 (data (fit_of p)) = take_rows (eq_num 2025 yr) df_master.
Proof.
  intros Hp. unfold prepare in Hp. inv_bind Hp.
  unfold fit_stage in Ha. inv_bind Ha. injection Ha as <-.
  unfold transform_stage in Hp. simpl in Hp. inv_bind Hp.
  injection Hp as <-. simpl. destruct a0 as [sp st0]. simpl in *.
  pose proof (split_Ok _ _ _ Ha0) as (_ & Hinf & _).
  unfold df_2025_of in Hinf. inv_bind Hinf. injection Hinf as <-.
  by exists a0.
Qed.

Lemma predict_stage_Ok best Xs df25 df out :
  predict_stage best Xs df25 = Ok (df, out) ->
  exists raw clamped,
    estimator_predict (snd best) Xs = Ok raw
    /\ length raw = nrows df25
    /\ mapM clamp (map cell_of_float raw) = Ok clamped
    /\ select (setitem (setitem df25 prediction_col (map cell_of_float raw))
                 prediction_col clamped) output_cols = Ok out.
Proof.
  unfold predict_stage. intros Hp.
  destruct (estimator_predict (snd best) Xs) as [raw|e] eqn:Hraw;
    cbn -[select mapM setitem getitem nrows] in Hp; [|done].
  destruct (length raw =? nrows df25)%nat eqn:Hlen;
    cbn -[select mapM setitem getitem nrows] in Hp; [|done].
  apply Nat.eqb_eq in Hlen.
  rewrite getitem_setitem_eq in Hp.
  cbn -[select mapM setitem getitem nrows] in Hp.
  destruct (mapM clamp (map cell_of_float raw)) as [clamped|e] eqn:Hc;
    cbn -[select mapM setitem getitem nrows] in Hp; [|done].
  destruct (select _ output_cols) as [o|e] eqn:Hsel;
    cbn -[select mapM setitem getitem nrows] in Hp; [|done].
  injection Hp as _ <-. by exists raw, clamped.
Qed.

(** X17.  The prediction table has one row for each row of the master
    table whose year is 2025, in table order, whether or not that row has a
    yield: its identifier columns are those rows of the master table as they
    are, every year on it is 2025, and it has as many predictions as
    rows. *)
Theorem predictions_are_for_the_2025_rows catalog df_master p t out :
  notebook catalog (Some df_master) = Ok (Some (p, t, out)) ->
  exists yr,
    getitem df_master "year" = Ok yr
    /\ columns out = output_cols
    /\ (forall c, c ∈ ["woreda_id"; "woreda_name"; "year"]%string ->
          exists col, getitem df_master c = Ok col
                      /\ getitem out c = Ok (take (eq_num 2025 yr) col))
    /\ (exists ys, getitem out "year" = Ok ys
                   /\ Forall (fun c => exists q, c = Num q /\ (q == 2025)%Q) ys)
    /\ (exists preds,
          getitem out prediction_col = Ok preds
          /\ length preds = nrows (take_rows (eq_num 2025 yr) df_master)).
Proof.
  unfold notebook, train_and_predict. intros Hn. inv_bind Hn.
  injection Hn as ->. inv_bind Ha0. destruct a1 as [df o].
  injection Ha0 as -> -> <-.
  destruct (prepare_df_2025 _ _ Ha) as (yr & Hyr & Hdf).
  apply predict_stage_Ok in Ha2 as (raw & clamped & _ & Hlen & Hc & Hsel).
  rewrite Hdf in Hlen, Hsel.
  assert (Hid : forall c, c ∈ ["woreda_id"; "woreda_name"; "year"]%string ->
            c ∈ output_cols /\ c <> prediction_col).
  { intros c Hc'. repeat (apply elem_of_cons in Hc' as [->|Hc']);
      [..|by apply elem_of_nil in Hc']; (split; [repeat constructor|done]). }
  assert (Hget : forall c, c ∈ ["woreda_id"; "woreda_name"; "year"]%string ->
            getitem o c = take (eq_num 2025 yr) <$> getitem df_master c).
  { intros c [Hin Hne]%Hid. rewrite (select_getitem _ _ _ _ Hsel) by done.
    rewrite !getitem_setitem_ne by done. apply getitem_take_rows. }
  exists yr. split; [done|]. split; [by eapply select_columns|].
  split; [|split].
  - intros c Hc'. rewrite (Hget c Hc').
    assert (Hin : c ∈ columns o).
    { rewrite (select_columns _ _ _ Hsel). by apply Hid. }
    destruct (getitem_elem _ _ Hin) as [s Hs]. rewrite (Hget c Hc') in Hs.
    destruct (getitem df_master c) as [col|e]; [|done]. by exists col.
  - rewrite (Hget "year"%string) by repeat constructor. rewrite Hyr. simpl.
    eexists. split; [done|apply take_eq_num].
  - exists clamped. split.
    + rewrite (select_getitem _ _ _ _ Hsel) by repeat constructor.
      apply getitem_setitem_eq.
    + apply mapM_result_Ok, Forall2_length in Hc.
      by rewrite <- Hc, length_map.
Qed.


End PredictionRows.

(** ** The importance tables of section 6 *)

Section ImportanceFacts.
Import Importance.

Lemma desc_leb_total key a b :
  desc_leb key a b = false -> desc_leb key b a = true.
Proof.
  unfold desc_leb. destruct (snd a) as [x|], (snd b) as [y|]; try done.
  intros Hle. apply Qle_bool_iff.
  destruct (Qlt_le_dec (key x) (key y)) as [Hlt|Hge]; [by apply Qlt_le_weak|].
  apply Qle_bool_iff in Hge. congruence.
Qed.

Lemma desc_leb_trans key a b c :
  desc_leb key a b = true -> desc_leb key b c = true ->
  desc_leb key a c = true.
Proof.
  unfold desc_leb.
  destruct (snd a) as [x|], (snd b) as [y|], (snd c) as [z|]; try done.
  rewrite !Qle_bool_iff. intros H1 H2. by eapply Qle_trans.
Qed.

Lemma two_columns_Some names values df :
  two_columns names values = Some df ->
  length values = length names /\ df = zip names values.
Proof.
  unfold two_columns. destruct (Nat.eqb_spec (length names) (length values));
    [|done]. by intros [= <-].
Qed.

(** What [head(10)] of a table sorted in descending order shows. *)
Lemma top_ten_spec key (df : list (string * float64)) :
  let rows := firstn 10 (sort_by (desc_leb key) df) in
  length rows = Nat.min 10 (length df)
  /\ StronglySorted (fun a b => desc_leb key a b = true) rows
  /\ exists omitted,
       rows ++ omitted ≡ₚ df
       /\ forall r r', r ∈ rows -> r' ∈ omitted -> desc_leb key r r' = true.
Proof.
  simpl. split; [|split].
  - by rewrite length_firstn, sort_by_perm.
  - pose proof (sort_by_StronglySorted (desc_leb key) (desc_leb_total key)
                  (desc_leb_trans key) df) as Hs.
    rewrite <- (firstn_skipn 10 (sort_by (desc_leb key) df)) in Hs.
    by apply StronglySorted_app_1_l in Hs.
  - exists (skipn 10 (sort_by (desc_leb key) df)). split.
    + by rewrite firstn_skipn, sort_by_perm.
    + intros r r' Hr Hr'.
      exact (sort_by_firstn (desc_leb key) (desc_leb_total key)
               (desc_leb_trans key) 10 df r r' Hr Hr').
Qed.

Context `{Attributes}.

(** X19.  For a winner that is a tree ensemble or a linear model, section
    6 prints the features with the ten largest importances, or the ten
    largest coefficients in absolute value, in descending order: each
    printed row pairs a feature with the value at its position, the rows are
    at most ten, and no omitted feature ranks above a printed one.  The
    table needs one value per feature. *)
Theorem importance_report_top_ten best feature_cols rows key values :
  report best feature_cols = Table rows ->
  (fst best ∈ ["Random Forest"; "XGBoost"]%string
   /\ feature_importances_ (snd best) = Some values /\ key = id)
  \/ (fst best ∈ ["Ridge"; "Lasso"]%string
      /\ coef_ (snd best) = Some values /\ key = Qabs) ->
  length values = length feature_cols
  /\ length rows = Nat.min 10 (length feature_cols)
  /\ StronglySorted (fun a b => desc_leb key a b = true) rows
  /\ exists omitted,
       rows ++ omitted ≡ₚ zip feature_cols values
       /\ forall r r', r ∈ rows -> r' ∈ omitted -> desc_leb key r r' = true.
Proof.
  unfold report. intros Hr Hcase.
  assert (Hdf : exists df, two_columns feature_cols values = Some df
                           /\ rows = firstn 10 (sort_by (desc_leb key) df)).
  { destruct Hcase as [(Hn & Hv & ->)|(Hn & Hv & ->)].
    - rewrite (bool_decide_eq_true_2 _ Hn), Hv in Hr.
      destruct (two_columns feature_cols values) as [df|]; [|done].
      injection Hr as <-. by exists df.
    - assert (Hnt : fst best ∉ ["Random Forest"; "XGBoost"]%string).
      { intros Ht. repeat (apply elem_of_cons in Hn as [Hn|Hn]);
          [..|by apply elem_of_nil in Hn]; rewrite Hn in Ht;
          repeat (apply elem_of_cons in Ht as [Ht|Ht]); try done;
          by apply elem_of_nil in Ht. }
      rewrite (bool_decide_eq_false_2 _ Hnt),
              (bool_decide_eq_true_2 _ Hn), Hv in Hr.
      destruct (two_columns feature_cols values) as [df|]; [|done].
      injection Hr as <-. by exists df. }
  destruct Hdf as (df & Hdf & ->).
  apply two_columns_Some in Hdf as [Hlen ->].
  split; [done|].
  destruct (top_ten_spec key (zip feature_cols values)) as (Hl & Hs & Ho).
  split; [|done].
  rewrite Hl, length_zip. f_equal. lia.
Qed.

(** X20.  For a stacking winner whose final estimator has coefficients,
    section 6 prints the whole table of meta-features, one row
    [base_model_<i>] for each of the estimators given to the constructor
    and whatever the features are, in descending order of the absolute
    coefficient; without coefficients it prints no table. *)
Theorem importance_report_stacking best feature_cols :
  fst best = "Stacking"%string ->
  match final_estimator_coef_ (snd best), estimators (snd best) with
  | Some None, _ => report best feature_cols = Nothing
  | Some (Some coefficients), Some n =>
      if (n =? length coefficients)%nat
      then exists rows,
             report best feature_cols = Table rows
             /\ rows ≡ₚ zip (meta_feature_names n) coefficients
             /\ map fst rows ≡ₚ meta_feature_names n
             /\ StronglySorted (fun a b => desc_leb Qabs a b = true) rows
      else report best feature_cols = LengthError
  | _, _ => report best feature_cols = AttributeError
  end.
Proof.
  intros Hname. unfold report. rewrite Hname. simpl.
  destruct (final_estimator_coef_ (snd best)) as [[coefficients|]|]; try done.
  destruct (estimators (snd best)) as [n|]; [|done].
  unfold two_columns, meta_feature_names. rewrite length_map, length_seq.
  destruct (Nat.eqb_spec n (length coefficients)) as [Hlen|Hne]; [|done].
  eexists. split; [reflexivity|]. split; [apply sort_by_perm|]. split.
  - rewrite sort_by_perm, fst_zip; [done|].
    rewrite length_map, length_seq. lia.
  - apply sort_by_StronglySorted;
      [apply desc_leb_total|apply desc_leb_trans].
Qed.

End ImportanceFacts.

(** ** The aggregated table does not depend on the order of the input *)

Lemma series_mean_singleton v : float_equiv (series_mean [v]) v.
Proof.
  destruct v as [x|]; [|done]. simpl. unfold arith_mean, Qsum. simpl.
  change (inject_Z 1) with 1%Q. field.
Qed.

Lemma Forall2_same_keys {A K : Type} (f : A -> K) (R : A -> A -> Prop) l1 l2 :
  map f l1 = map f l2 ->
  (forall x y, x ∈ l1 -> y ∈ l2 -> f x = f y -> R x y) ->
  Forall2 R l1 l2.
Proof.
  revert l2. induction l1 as [|x l1 IH]; intros [|y l2]; simpl; try done.
  intros [= Hxy Hmap] HR. constructor.
  - apply HR; [left|left|done].
  - apply IH; [done|]. intros x' y' Hx' Hy'. apply HR; by right.
Qed.

Lemma key_lt_sorted_unique (l1 l2 : list (string * Z * Z)) :
  StronglySorted key_lt l1 -> StronglySorted key_lt l2 ->
  NoDup l1 -> NoDup l2 -> (forall k, k ∈ l1 <-> k ∈ l2) -> l1 = l2.
Proof.
  intros Hs1 Hs2 Hn1 Hn2 Hel.
  apply (StronglySorted_unique_strong key_lt); [|done|done|].
  - intros k1 k2 _ _ H12 H21. exfalso.
    by apply (key_lt_irrefl k1), (key_lt_trans _ k2).
  - by apply NoDup_Permutation.
Qed.

Lemma filter_unique_key (out : list Aggregator.vi_row) r :
  NoDup (map Aggregator.sort_key out) -> r ∈ out ->
  filter (fun o => Aggregator.obs_key o = Aggregator.sort_key r)
         (map Aggregator.obs out) = [Aggregator.obs r].
Proof.
  induction out as [|r0 out IH]; simpl; intros Hnd Hin.
  - by apply elem_of_nil in Hin.
  - apply NoDup_cons in Hnd as [Hr0 Hnd]. rewrite filter_cons.
    assert (Hkey : forall r', r' ∈ out ->
              Aggregator.sort_key r' <> Aggregator.sort_key r0).
    { intros r' Hr' Heq. apply Hr0. rewrite <- Heq.
      apply list_elem_of_In, in_map. by apply list_elem_of_In. }
    apply elem_of_cons in Hin as [->|Hin].
    + destruct (decide _) as [_|Hne]; [|done]. f_equal.
      clear IH Hnd Hr0. induction out as [|r' out IH]; [done|].
      simpl. rewrite filter_cons. destruct (decide _) as [Heq|_].
      * exfalso. eapply Hkey; [left|exact Heq].
      * apply IH. intros r'' Hr''. apply Hkey. by right.
    + destruct (decide _) as [Heq|_]; [|by apply IH].
      exfalso. by eapply Hkey.
Qed.

Section OrderIndependence.
Import Aggregator.
Variable woreda_name_map : gmap string string.

Lemma aggregate_same_keys f1 f2 :
  (forall k, k ∈ map sort_key (aggregate woreda_name_map f1) <->
             k ∈ map sort_key (aggregate woreda_name_map f2)) ->
  map sort_key (aggregate woreda_name_map f1) =
  map sort_key (aggregate woreda_name_map f2).
Proof.
  intros Hel. apply key_lt_sorted_unique; try apply aggregate_keys_NoDup;
    [| |done];
    apply (StronglySorted_fmap sort_key
             (fun a b => key_lt (sort_key a) (sort_key b)));
    try done; apply aggregate_sorted.
Qed.

(** X21.  The aggregation does not depend on the order in which the
    directory lists the export files, nor on the order of the rows in them:
    two inputs with the same observations give tables with the same keys
    and names in the same order; key by key, the two values of a variable
    are the means of the same observations, listed in another order, and
    one is missing exactly when the other is. *)
Theorem aggregate_order_independent f1 f2 :
  concat_frames f1 ≡ₚ concat_frames f2 ->
  Forall2
    (fun r1 r2 =>
       let g1 := filter (fun o => obs_key o = sort_key r1) (concat_frames f1) in
       let g2 := filter (fun o => obs_key o = sort_key r2) (concat_frames f2) in
       sort_key r1 = sort_key r2
       /\ woreda_name r1 = woreda_name r2
       /\ g1 ≡ₚ g2
       /\ avg_ndvi (obs r1) = series_mean (map avg_ndvi g1)
       /\ avg_ndvi (obs r2) = series_mean (map avg_ndvi g2)
       /\ avg_savi (obs r1) = series_mean (map avg_savi g1)
       /\ avg_savi (obs r2) = series_mean (map avg_savi g2)
       /\ (avg_ndvi (obs r1) = None <-> avg_ndvi (obs r2) = None)
       /\ (avg_savi (obs r1) = None <-> avg_savi (obs r2) = None))
    (aggregate woreda_name_map f1) (aggregate woreda_name_map f2).
Proof.
  intros Hperm. apply (Forall2_same_keys sort_key).
  - apply aggregate_same_keys. intros k. rewrite !aggregate_key_elem.
    split; intros (o & Ho & Hm & Hk); exists o; (split; [|done]);
      [by rewrite <- Hperm|by rewrite Hperm].
  - intros r1 r2 Hr1 Hr2 Hkey.
    apply aggregate_row_spec in Hr1 as (i1 & n1 & y1 & m1 & Hn1 & _ & ->).
    apply aggregate_row_spec in Hr2 as (i2 & n2 & y2 & m2 & Hn2 & _ & ->).
    unfold sort_key in Hkey. simpl in Hkey. injection Hkey as -> -> ->.
    rewrite Hn1 in Hn2. injection Hn2 as ->.
    unfold sort_key. simpl.
    assert (Hg : filter (fun o => obs_key o = (i2, y2, m2)) (concat_frames f1)
                 ≡ₚ filter (fun o => obs_key o = (i2, y2, m2))
                      (concat_frames f2)).
    { by rewrite Hperm. }
    repeat (split; [done|]).
    rewrite !series_mean_None, !Forall_fmap.
    split; by rewrite Hg.
Qed.

(** X22.  Aggregating the aggregated table again gives it back: every key
    stands for one observation now, whose mean is the value itself, so
    reading the written file as an input changes nothing. *)
Theorem aggregate_idempotent all_vi_data :
  Forall2 row_equiv
    (aggregate woreda_name_map
       [map obs (aggregate woreda_name_map all_vi_data)])
    (aggregate woreda_name_map all_vi_data).
Proof.
  set (out := aggregate woreda_name_map all_vi_data).
  assert (Hcat : concat_frames [map obs out] = map obs out).
  { unfold concat_frames. simpl. apply app_nil_r. }
  apply (Forall2_same_keys sort_key).
  - apply aggregate_same_keys. intros k. rewrite aggregate_key_elem, Hcat.
    split.
    + intros (o & Ho & _ & <-).
      apply list_elem_of_In, in_map_iff in Ho as (r & <- & Hr).
      apply list_elem_of_In. by apply (in_map sort_key).
    + intros Hk. apply list_elem_of_In, in_map_iff in Hk as (r & <- & Hr).
      apply list_elem_of_In in Hr. exists (obs r). split.
      * apply list_elem_of_In, in_map. by apply list_elem_of_In.
      * split; [|done]. erewrite aggregate_elem_mapped; [by eexists|exact Hr].
  - intros r2 r Hr2 Hr Hkey.
    apply aggregate_row_spec in Hr2 as (i & n & y & mo & Hn & _ & ->).
    unfold sort_key at 1 in Hkey. simpl in Hkey.
    rewrite Hcat, Hkey, (filter_unique_key out r);
      [|apply aggregate_keys_NoDup|done].
    pose proof (aggregate_elem_mapped _ _ _ Hr) as Hname.
    assert (Hi : woreda_id (obs r) = i) by (by injection Hkey).
    rewrite Hi, Hn in Hname. injection Hname as Hname.
    split; [by rewrite <- Hkey|]. split; [done|]. simpl.
    split; apply series_mean_singleton.
Qed.

End OrderIndependence.

(** ** The further properties on the examples *)

Section MoreWitnesses.
Import Frame Example Example09.


Lemma infer_id_round_trip_witness :
  Loader.is_export "sentinel2_W1.csv" = true
  /\ Loader.infer_id "sentinel2_W1.csv" = "W1"%string.
Proof. exact (infer_id_round_trip "W1" eq_refl eq_refl). Defined.

Lemma no_winner_raises_type_error_witness :
  exists p,
    Preparation.prepare (H:=lib) master = Ok p
    /\ Engine.train_stage (H:=lib) catalog_undetermined p
       = Raise (TypeError "'NoneType' object is not subscriptable").
Proof.
  let r := eval vm_compute in (Preparation.prepare (H:=lib) master) in
  match r with
  | Ok ?p =>
      exists p;
      destruct (no_winner_raises_type_error (H:=lib) catalog_undetermined p)
        as [[_ Hraise] _];
      [discriminate|repeat (constructor; [reflexivity|]); constructor|]
  end.
  split; [reflexivity|]. apply Hraise.
  repeat (constructor; [intros s [= <-]; reflexivity|]). constructor.
Defined.

Lemma comparison_table_agrees_with_winner_witness :
  exists p t w,
    Preparation.prepare (H:=lib) master = Ok p
    /\ Engine.train_stage (H:=lib) Engine.models p = Ok t
    /\ w ∈ Engine.df_results t
    /\ Engine.Model w = fst (Engine.winner t)
    /\ Forall (fun row => slt (Engine.Avg_RMSE row) (Engine.Avg_RMSE w) = false)
              (Engine.df_results t)
    /\ StronglySorted (fun a b => Engine.rmse_leb a b = true)
                      (Engine.df_results t).
Proof.
  let r := eval vm_compute in (Preparation.prepare (H:=lib) master) in
  match r with
  | Ok ?p =>
      let r' := eval vm_compute in (Engine.train_stage (H:=lib) Engine.models p) in
      match r' with
      | Ok ?t =>
          exists p, t;
          destruct (comparison_table_agrees_with_winner (H:=lib)
                      Engine.models p t)
            as (_ & Hsorted & w & Hw & Hname & _ & Hbelow & _);
          [reflexivity|exists w]
      end
  end.
  split; [reflexivity|]. split; [reflexivity|]. by repeat split.
Defined.

Lemma split_keeps_rows_aligned_witness :
  exists sp st0,
    Preparation.split master = Ok (sp, st0)
    /\ Forall (fun c => is_nan c = false) (Preparation.y sp)
    /\ exists col,
         getitem (Preparation.X st0) "ndvi_mean" = Ok col
         /\ length col = length (Preparation.y sp).
Proof.
  let r := eval vm_compute in (Preparation.split master) in
  match r with
  | Ok (?sp, ?st0) =>
      exists sp, st0;
      destruct (split_keeps_rows_aligned master sp st0)
        as (tgt & yr & _ & _ & _ & Hy & Hcols);
      [repeat constructor|reflexivity|]
  end.
  split; [reflexivity|]. split; [exact Hy|].
  destruct (Hcols "ndvi_mean"%string) as (col & _ & Hx & _ & Hlen).
  - vm_compute. repeat constructor.
  - eexists. split; [exact Hx|exact Hlen].
Defined.

Lemma target_is_never_a_feature_witness :
  exists p,
    Preparation.prepare (H:=lib) master = Ok p
    /\ Preparation.feature_cols (Preparation.data (Preparation.fit_of p))
       = ["ndvi_mean"; "rain_total"]%string
    /\ columns (Preparation.X_scaled_df p) = ["ndvi_mean"; "rain_total"]%string.
Proof.
  let r := eval vm_compute in (Preparation.prepare (H:=lib) master) in
  match r with
  | Ok ?p =>
      exists p;
      destruct (target_is_never_a_feature (H:=lib) master p)
        as (Hcols & _ & Hx & _); [reflexivity|]
  end.
  split; [reflexivity|]. split; [reflexivity|]. rewrite Hx. reflexivity.
Defined.

Lemma missing_column_raises_key_error_witness :
  Predictor.notebook (H:=lib) Engine.models (Some shuffled)
  = Raise (KeyError Preparation.target_col).
Proof.
  apply (proj1 (missing_column_raises_key_error (H:=lib) Engine.models shuffled)).
  apply (bool_decide_unpack _). vm_compute. exact I.
Defined.

Lemma predictions_are_for_the_2025_rows_witness :
  exists p t out,
    Predictor.notebook (H:=lib) Engine.models (Some master) = Ok (Some (p, t, out))
    /\ columns out = Predictor.output_cols
    /\ exists ys, getitem out "year" = Ok ys
                  /\ Forall (fun c => exists q, c = Num q /\ (q == 2025)%Q) ys.
Proof.
  let r := eval vm_compute in
    (Predictor.notebook (H:=lib) Engine.models (Some master)) in
  match r with
  | Ok (Some (?p, ?t, ?out)) =>
      exists p, t, out;
      destruct (predictions_are_for_the_2025_rows (H:=lib)
                  Engine.models master p t out)
        as (yr & _ & Hc & _ & Hyear & _); [reflexivity|]
  end.
  split; [reflexivity|]. split; [exact Hc|exact Hyear].
Defined.


Lemma importance_report_top_ten_witness :
  exists rows,
    Importance.report (H0:=attrs) ("Ridge"%string, variant [9; 4; 25] 5)
      ["ndvi_mean"; "rain_total"; "lst_mean"]%string = Importance.Table rows
    /\ length rows = 3%nat
    /\ StronglySorted (fun a b => Importance.desc_leb Qabs a b = true) rows.
Proof.
  let r := eval vm_compute in
    (Importance.report (H0:=attrs) ("Ridge"%string, variant [9; 4; 25] 5)
       ["ndvi_mean"; "rain_total"; "lst_mean"]%string) in
  match r with
  | Importance.Table ?rows =>
      exists rows;
      destruct (importance_report_top_ten (H0:=attrs)
                  ("Ridge"%string, variant [9; 4; 25] 5)
                  ["ndvi_mean"; "rain_total"; "lst_mean"]%string rows Qabs
                  (weights (variant [9; 4; 25] 5)))
        as (_ & Hlen & Hsorted & _)
  end.
  - vm_compute. reflexivity.
  - right. split; [repeat constructor|]. split; reflexivity.
  - split; [vm_compute; reflexivity|]. split; [exact Hlen|exact Hsorted].
Defined.

Lemma importance_report_stacking_witness :
  exists rows,
    Importance.report (H0:=attrs) ("Stacking"%string, variant [36; 4] 7) []
    = Importance.Table rows
    /\ rows ≡ₚ zip (Importance.meta_feature_names 2)
                   (weights (variant [36; 4] 7))
    /\ map fst rows ≡ₚ Importance.meta_feature_names 2
    /\ StronglySorted (fun a b => Importance.desc_leb Qabs a b = true) rows.
Proof.
  exact (importance_report_stacking (H0:=attrs)
           ("Stacking"%string, variant [36; 4] 7) [] eq_refl).
Defined.

Lemma aggregate_order_independent_witness :
  Forall2
    (fun r1 r2 =>
       Aggregator.sort_key r1 = Aggregator.sort_key r2
       /\ Aggregator.woreda_name r1 = Aggregator.woreda_name r2
       /\ (Aggregator.avg_ndvi (Aggregator.obs r1) = None <->
            Aggregator.avg_ndvi (Aggregator.obs r2) = None)
       /\ (Aggregator.avg_savi (Aggregator.obs r1) = None <->
            Aggregator.avg_savi (Aggregator.obs r2) = None))
    (Aggregator.aggregate boundaries vi_files)
    (Aggregator.aggregate boundaries (rev vi_files)).
Proof.
  eapply Forall2_impl.
  - apply (aggregate_order_independent boundaries vi_files (rev vi_files)).
    exact (Permutation_app_comm
             [Aggregator.Build_vi_obs "W1" 2023 5 (Some 1%Q) (Some 4%Q);
              Aggregator.Build_vi_obs "W9" 2023 5 (Some 8%Q) (Some 8%Q)]
             [Aggregator.Build_vi_obs "W1" 2023 5 (Some 3%Q) (Some 6%Q);
              Aggregator.Build_vi_obs "W1" 2023 6 (Some 5%Q) None]).
  - intros r1 r2 (Hk & Hn & _ & _ & _ & _ & _ & Hnd & Hsv).
    split; [exact Hk|]. split; [exact Hn|]. split; [exact Hnd|exact Hsv].
Defined.

End MoreWitnesses.
